(** * Verification of the vlab topology compiler and connectivity checks

    A shallow embedding of [pkg/vlab] (the VM manager built by
    [NewVMManager] and the checks run by [TestServerConnectivity]) together
    with the properties its specification states about them.

    Conventions.
    - Go's [int] is the 64-bit signed integer: values are [Z], and [wrap]
      is written at every operation whose operands come from input text.
      Loop counters bounded by the length of a slice are left unwrapped.
    - A Go function returning [(T, error)] is a function into [result T].
    - [map[string]*VM] and [map[string]*Server] are [gmap string _]; every
      access goes through the map, so an update made through one pointer is
      seen by every later lookup of the same name. *)

From Stdlib Require Import ZArith String Ascii List Lia DecimalString DecimalZ.
From Stdlib Require Import Floats.SpecFloat.
From stdpp Require Import base option gmap strings list fin_maps.

Local Open Scope Z_scope.

(** ** Errors *)

Inductive error : Type :=
  | ErrDuplicateName (name : string)
  | ErrControlRequired
  | ErrMultipleControl
  | ErrUnsupportedConnection (conn : string)
  | ErrLocalPortNil
  | ErrDeviceNotExist (device : string)
  | ErrDestNotExist (device port : string)
  | ErrInterfaceTaken (device : string) (iface : Z) (port : string)
  | ErrPciRequired (port : string)
  | ErrAtoi (name : string)
  | ErrUnsupportedPortName (name : string)
  | ErrEndpoints (conn : string)
  | ErrSubnetNotFound (server attachment : string)
  | ErrGetIP (server : string)
  | ErrParseIP (server : string)
  | ErrSubnetMismatch (server : string)
  | ErrPeeringVPCs (peering : string)
  | ErrNotEnoughServers (peering vpc : string)
  | ErrNoDefaultRoute (peering : string)
  | ErrMultipleExternal (server : string)
  | ErrUnexpectedResult
  | ErrNilDereference.

Inductive result (A : Type) : Type :=
  | Ok (a : A)
  | Err (e : error).
Arguments Ok {A} a.
Arguments Err {A} e.

#[global] Instance result_ret : MRet result := fun _ a => Ok a.
#[global] Instance result_bind : MBind result := fun _ _ k r =>
  match r with
  | Ok a => k a
  | Err e => Err e
  end.

Definition isOk {A : Type} (r : result A) : bool :=
  match r with Ok _ => true | Err _ => false end.

(** A [for] loop over a slice whose body may return an error. *)
Fixpoint forM {A S : Type} (body : S -> A -> result S) (xs : list A) (s : S)
  : result S :=
  match xs with
  | [] => Ok s
  | x :: xs' => s' ← body s x; forM body xs' s'
  end.

(** ** The parts of Go's [strings] and [strconv] the code calls *)

Module GoStr.

Fixpoint HasPrefix (s p : string) {struct p} : bool :=
  match p, s with
  | EmptyString, _ => true
  | String c p', String d s' => if Ascii.eqb c d then HasPrefix s' p' else false
  | String _ _, EmptyString => false
  end.

(** [strings.CutPrefix] where the prefix is known to be there. *)
Fixpoint dropPrefix (s p : string) {struct p} : string :=
  match p, s with
  | String _ p', String _ s' => dropPrefix s' p'
  | _, _ => s
  end.

Definition CutPrefix (s p : string) : string * bool :=
  if HasPrefix s p then (dropPrefix s p, true) else (s, false).

Fixpoint Contains (s sub : string) : bool :=
  HasPrefix s sub ||
  match s with
  | EmptyString => false
  | String _ s' => Contains s' sub
  end.

Definition max_int : Z := 9223372036854775807.
Definition min_int : Z := -9223372036854775808.

(** Two's complement wrap-around of 64-bit [int] arithmetic. *)
Definition wrap (z : Z) : Z := (z + 2 ^ 63) mod 2 ^ 64 - 2 ^ 63.

Definition digitOf (c : ascii) : option Z :=
  let n := Z.of_N (N_of_ascii c) in
  if (48 <=? n) && (n <=? 57) then Some (n - 48) else None.

(** The digit loop [n = n*10 + int(ch)]; the accumulator is unbounded
    here and the range is checked once at the end, which gives the same
    result as [ParseInt]'s cutoff test. *)
Fixpoint digitsFrom (s : string) (acc : Z) : option Z :=
  match s with
  | EmptyString => Some acc
  | String c s' =>
      match digitOf c with
      | Some d => digitsFrom s' (acc * 10 + d)
      | None => None
      end
  end.

Definition digits (s : string) : option Z :=
  match s with
  | EmptyString => None
  | _ => digitsFrom s 0
  end.

(** [strconv.Atoi]: an optional sign, then one or more decimal digits,
    the value within the range of [int]; [None] is Go's non-nil error. *)
Definition Atoi (s : string) : option Z :=
  let signed :=
    match s with
    | String "-" s' => (fun n => - n) <$> digits s'
    | String "+" s' => digits s'
    | _ => digits s
    end in
  match signed with
  | Some n => if (min_int <=? n) && (n <=? max_int) then Some n else None
  | None => None
  end.

(** The value the digit loop reaches on the digits of [d], from [acc]. *)
Fixpoint uintValue (d : Decimal.uint) (acc : Z) : Z :=
  match d with
  | Decimal.Nil => acc
  | Decimal.D0 l => uintValue l (acc * 10 + 0)
  | Decimal.D1 l => uintValue l (acc * 10 + 1)
  | Decimal.D2 l => uintValue l (acc * 10 + 2)
  | Decimal.D3 l => uintValue l (acc * 10 + 3)
  | Decimal.D4 l => uintValue l (acc * 10 + 4)
  | Decimal.D5 l => uintValue l (acc * 10 + 5)
  | Decimal.D6 l => uintValue l (acc * 10 + 6)
  | Decimal.D7 l => uintValue l (acc * 10 + 7)
  | Decimal.D8 l => uintValue l (acc * 10 + 8)
  | Decimal.D9 l => uintValue l (acc * 10 + 9)
  end.

(** [fmt.Sprintf("%d", n)]. *)
Definition itoa (n : Z) : string := NilZero.string_of_int (Z.to_int n).

End GoStr.

(** ** Port names *)

Definition portIdForName (name : string) : result Z :=
  if GoStr.HasPrefix name "Management0" then Ok 0
  else if GoStr.HasPrefix name "Ethernet" then
    let port := fst (GoStr.CutPrefix name "Ethernet") in
    match GoStr.Atoi port with
    | Some idx => Ok (GoStr.wrap (idx + 1))
    | None => Err (ErrAtoi name)
    end
  else if GoStr.HasPrefix name "port" then
    let port := fst (GoStr.CutPrefix name "port") in
    match GoStr.Atoi port with
    | Some idx => Ok idx
    | None => Err (ErrAtoi name)
    end
  else if GoStr.HasPrefix name "enp2s" then
    let port := fst (GoStr.CutPrefix name "enp2s") in
    match GoStr.Atoi port with
    | Some idx => Ok idx
    | None => Err (ErrAtoi name)
    end
  else Err (ErrUnsupportedPortName name).


(** ** The wiring model: the fields of [wiringapi] and [wiring.Data] read here *)

Module wiringapi.

(** [IPort] is an interface with three methods; a port is the record of what
    they return. *)
Record IPort : Type := {
  PortName : string;
  LocalPortName : string;
  DeviceName : string
}.

Inductive ServerType : Type := ServerTypeControl | ServerTypeDefault.

#[global] Instance ServerType_eq_dec : EqDecision ServerType.
Proof. solve_decision. Defined.

Record Server : Type := { ServerName : string; ServerSpecType : ServerType }.

Definition IsControl (s : Server) : bool :=
  bool_decide (ServerSpecType s = ServerTypeControl).

Record Switch : Type := { SwitchName : string }.

Record ServerToSwitchLink : Type := { LinkServer : IPort; LinkSwitch : IPort }.
Record SwitchToSwitchLink : Type := { Switch1 : IPort; Switch2 : IPort }.
Record FabricLink : Type := { Spine : IPort; Leaf : IPort }.

Record ConnUnbundled : Type := { UnbundledLink : ServerToSwitchLink }.
Record ConnBundled : Type := { BundledLinks : list ServerToSwitchLink }.
Record ConnMgmt : Type := { MgmtLink : ServerToSwitchLink }.
Record ConnMCLAG : Type := { MCLAGLinks : list ServerToSwitchLink }.
Record ConnMCLAGDomain : Type := {
  PeerLinks : list SwitchToSwitchLink;
  SessionLinks : list SwitchToSwitchLink
}.
Record ConnNAT : Type := { NATLinkSwitch : IPort }.
Record ConnFabric : Type := { FabricLinks : list FabricLink }.
Record ConnVPCLoopback : Type := { VPCLoopbackLinks : list SwitchToSwitchLink }.

(** [ConnectionSpec] is a struct of pointers, at most one of which is meant
    to be set; [None] is the nil pointer. *)
Record ConnectionSpec : Type := {
  Unbundled : option ConnUnbundled;
  Bundled : option ConnBundled;
  Management : option ConnMgmt;
  MCLAG : option ConnMCLAG;
  MCLAGDomain : option ConnMCLAGDomain;
  NAT : option ConnNAT;
  Fabric : option ConnFabric;
  VPCLoopback : option ConnVPCLoopback
}.

Record Connection : Type := { ConnName : string; Spec : ConnectionSpec }.

(** [wiring.Data]: what [data.Server.All()], [data.Switch.All()] and
    [data.Connection.All()] return, in the order they return it. *)
Record Data : Type := {
  Servers : list Server;
  Switches : list Switch;
  Connections : list Connection
}.

End wiringapi.

(** ** The topology compiler *)

Module Topology.
Import wiringapi.

Record VMConfig : Type := { CPU : Z; RAM : Z; Disk : Z }.

Definition DefaultControlVM : VMConfig := {| CPU := 6; RAM := 6144; Disk := 100 |}.
Definition CompactControlVM : VMConfig := {| CPU := 4; RAM := 4096; Disk := 50 |}.
Definition FullControlVM : VMConfig := {| CPU := 8; RAM := 16384; Disk := 250 |}.
Definition DefaultServerVM : VMConfig := {| CPU := 2; RAM := 512; Disk := 10 |}.
Definition CompactServerVM : VMConfig := {| CPU := 1; RAM := 0; Disk := 0 |}.
Definition FullServerVM : VMConfig := {| CPU := 0; RAM := 0; Disk := 0 |}.
Definition DefaultSwitchVM : VMConfig := {| CPU := 4; RAM := 5120; Disk := 50 |}.
Definition CompactSwitchVM : VMConfig := {| CPU := 3; RAM := 3584; Disk := 30 |}.
Definition FullSwitchVM : VMConfig := {| CPU := 0; RAM := 8192; Disk := 0 |}.

Definition VM_SIZE_DEFAULT : string := "default".
Definition VM_SIZE_COMPACT : string := "compact".
Definition VM_SIZE_FULL : string := "full".

Record VMsConfig : Type := { Control : VMConfig; Server : VMConfig; Switch : VMConfig }.
Record LinkConfig : Type := { PCIAddress : string }.
Record Config : Type := { VMs : VMsConfig; Links : gmap string LinkConfig }.

(** Constants and helpers of the package that are declared outside the files
    at hand; the development is parametric in them. *)
Class Platform : Type := {
  SSH_PORT_BASE : Z;
  KUBE_PORT : Z;
  REGISTRY_PORT : Z;
  IF_PORT_BASE : Z;
  IF_PORT_VM_ID_MULT : Z;
  IF_PORT_PORT_ID_MULT : Z;
  DefaultsFrom : VMConfig -> VMConfig -> VMConfig;
  OverrideBy : VMConfig -> VMConfig -> VMConfig;
  filepath_Join : string -> string -> string
}.

Inductive VMType : Type := VMTypeControl | VMTypeServer | VMTypeSwitchVS | VMTypeSwitchHW.

Record VMInterface : Type := {
  Connection : string;
  Netdev : string;
  Passthrough : string
}.

#[global] Instance VMInterface_eq_dec : EqDecision VMInterface.
Proof. solve_decision. Defined.

(** [VMInterface{}], the zero value. *)
Definition emptyInterface : VMInterface :=
  {| Connection := ""; Netdev := ""; Passthrough := "" |}.

Record fileMarker : Type := { path : string }.

Record VM : Type := {
  ID : Z;
  Name : string;
  Type_ : VMType;
  Basedir : string;
  VMCfg : VMConfig;
  Interfaces : gmap Z VMInterface;
  Ready : fileMarker;
  Installed : fileMarker
}.

Record VMManager : Type := { cfg : Config; vms : gmap string VM }.

Definition setInterfaces (vm : VM) (ifs : gmap Z VMInterface) : VM :=
  {| ID := ID vm; Name := Name vm; Type_ := Type_ vm; Basedir := Basedir vm;
     VMCfg := VMCfg vm; Interfaces := ifs; Ready := Ready vm;
     Installed := Installed vm |}.

Section WithPlatform.
Context `{Platform}.

Definition sshPortFor (vmID : Z) : Z := GoStr.wrap (SSH_PORT_BASE + vmID).

Definition ifacePortFor (vm : VM) (iface : Z) : Z :=
  GoStr.wrap (IF_PORT_BASE + ID vm * IF_PORT_VM_ID_MULT + iface * IF_PORT_PORT_ID_MULT).

Definition applySize (c : Config) (size : string) : Config :=
  let v0 := VMs c in
  let v1 := {| Control := DefaultsFrom (Control v0) DefaultControlVM;
               Server := DefaultsFrom (Server v0) DefaultServerVM;
               Switch := DefaultsFrom (Switch v0) DefaultSwitchVM |} in
  let v2 := if String.eqb size VM_SIZE_DEFAULT then
              {| Control := OverrideBy (Control v1) DefaultControlVM;
                 Server := OverrideBy (Server v1) DefaultServerVM;
                 Switch := OverrideBy (Switch v1) DefaultSwitchVM |}
            else v1 in
  let v3 := if String.eqb size VM_SIZE_COMPACT then
              {| Control := OverrideBy (Control v2) CompactControlVM;
                 Server := OverrideBy (Server v2) CompactServerVM;
                 Switch := OverrideBy (Switch v2) CompactSwitchVM |}
            else v2 in
  let v4 := if String.eqb size VM_SIZE_FULL then
              {| Control := OverrideBy (Control v3) FullControlVM;
                 Server := OverrideBy (Server v3) FullServerVM;
                 Switch := OverrideBy (Switch v3) FullSwitchVM |}
            else v3 in
  {| VMs := v4; Links := Links c |}.

Definition controlNetdev (vmID : Z) (name : string) : string :=
  "user,hostfwd=tcp:127.0.0.1:" +:+ GoStr.itoa (sshPortFor vmID)
  +:+ "-:22,hostfwd=tcp:127.0.0.1:" +:+ GoStr.itoa KUBE_PORT
  +:+ "-:6443,hostfwd=tcp:127.0.0.1:" +:+ GoStr.itoa REGISTRY_PORT
  +:+ "-:31000,hostname=" +:+ name
  +:+ ",domainname=local,dnssearch=local,net=172.31." +:+ GoStr.itoa vmID
  +:+ ".0/24,dhcpstart=172.31." +:+ GoStr.itoa vmID +:+ ".10".

Definition serverNetdev (vmID : Z) (name : string) : string :=
  "user,hostfwd=tcp:127.0.0.1:" +:+ GoStr.itoa (sshPortFor vmID)
  +:+ "-:22,hostname=" +:+ name
  +:+ ",domainname=local,dnssearch=local,net=172.31." +:+ GoStr.itoa vmID
  +:+ ".0/24,dhcpstart=172.31." +:+ GoStr.itoa vmID +:+ ".10,restrict=yes".

Definition hostInterface (netdev : string) : gmap Z VMInterface :=
  {[ 0 := {| Connection := "host"; Netdev := netdev; Passthrough := "" |} ]}.

Definition newVM (vmID : Z) (name : string) (t : VMType) (c : VMConfig)
    (ifs : gmap Z VMInterface) : VM :=
  {| ID := vmID; Name := name; Type_ := t; Basedir := ""; VMCfg := c;
     Interfaces := ifs; Ready := {| path := "" |}; Installed := {| path := "" |} |}.

(** The state of the three ID passes: the registry and the next [vmID]. *)
Definition register (st : gmap string VM * Z) (name : string) (mk : Z -> VM)
  : result (gmap string VM * Z) :=
  match st.1 !! name with
  | Some _ => Err (ErrDuplicateName name)
  | None => Ok (<[name := mk st.2]> st.1, st.2 + 1)
  end.

Definition controlVM (c : Config) (name : string) (vmID : Z) : VM :=
  newVM vmID name VMTypeControl (Control (VMs c)) (hostInterface (controlNetdev vmID name)).

Definition serverVM (c : Config) (name : string) (vmID : Z) : VM :=
  newVM vmID name VMTypeServer (Server (VMs c)) (hostInterface (serverNetdev vmID name)).

Definition switchVM (c : Config) (name : string) (vmID : Z) : VM :=
  newVM vmID name VMTypeSwitchVS (Switch (VMs c)) ∅.

Definition addControl (c : Config) (st : gmap string VM * Z) (server : wiringapi.Server)
  : result (gmap string VM * Z) :=
  if bool_decide (ServerSpecType server ≠ ServerTypeControl) then Ok st
  else register st (ServerName server) (controlVM c (ServerName server)).

Definition addServer (c : Config) (st : gmap string VM * Z) (server : wiringapi.Server)
  : result (gmap string VM * Z) :=
  if bool_decide (ServerSpecType server ≠ ServerTypeDefault) then Ok st
  else register st (ServerName server) (serverVM c (ServerName server)).

Definition addSwitch (c : Config) (st : gmap string VM * Z) (sw : wiringapi.Switch)
  : result (gmap string VM * Z) :=
  register st (SwitchName sw) (switchVM c (SwitchName sw)).

(** Lines 860-938: the three passes that create the VMs and number them. *)
Definition assignVMs (c : Config) (data : Data) : result (gmap string VM * Z) :=
  st ← forM (addControl c) (Servers data) (∅, 0);
  if st.2 =? 0 then Err ErrControlRequired
  else if 1 <? st.2 then Err ErrMultipleControl
  else
    st ← forM (addServer c) (Servers data) st;
    forM (addSwitch c) (Switches data) st.

Definition setPaths (basedir : string) (vm : VM) : VM :=
  let dir := filepath_Join basedir (Name vm) in
  {| ID := ID vm; Name := Name vm; Type_ := Type_ vm; Basedir := dir;
     VMCfg := VMCfg vm; Interfaces := Interfaces vm;
     Ready := {| path := filepath_Join dir "ready" |};
     Installed := {| path := filepath_Join dir "installed" |} |}.

Definition s2sLink (l : ServerToSwitchLink) : option IPort * option IPort :=
  (Some (LinkServer l), Some (LinkSwitch l)).
Definition sw2swLink (l : SwitchToSwitchLink) : option IPort * option IPort :=
  (Some (Switch1 l), Some (Switch2 l)).
Definition fabricLink (l : FabricLink) : option IPort * option IPort :=
  (Some (Spine l), Some (Leaf l)).

(** The [links] slice built for one connection; an [IPort] that is nil is
    [None]. *)
Definition linksOf (conn : wiringapi.Connection)
  : result (list (option IPort * option IPort)) :=
  let s := Spec conn in
  match Unbundled s, Bundled s, Management s, MCLAG s with
  | Some u, _, _, _ => Ok [s2sLink (UnbundledLink u)]
  | None, Some b, _, _ => Ok (s2sLink <$> BundledLinks b)
  | None, None, Some m, _ => Ok [s2sLink (MgmtLink m)]
  | None, None, None, Some m => Ok (s2sLink <$> MCLAGLinks m)
  | None, None, None, None =>
    match MCLAGDomain s, NAT s, Fabric s, VPCLoopback s with
    | Some d, _, _, _ => Ok ((sw2swLink <$> PeerLinks d) ++ (sw2swLink <$> SessionLinks d))
    | None, Some n, _, _ => Ok [(Some (NATLinkSwitch n), None)]
    | None, None, Some f, _ => Ok (fabricLink <$> FabricLinks f)
    | None, None, None, Some v => Ok (sw2swLink <$> VPCLoopbackLinks v)
    | None, None, None, None => Err (ErrUnsupportedConnection (ConnName conn))
    end
  end.

Definition linkNetdev (localVM : VM) (localPortID : Z) (dest : option (VM * Z)) : string :=
  let netdev := "socket,udp=127.0.0.1:" +:+ GoStr.itoa (ifacePortFor localVM localPortID) in
  match dest with
  | Some (destVM, destPortID) =>
      netdev +:+ ",localaddr=127.0.0.1:" +:+ GoStr.itoa (ifacePortFor destVM destPortID)
  | None => netdev
  end.

Definition AddLink (mngr : VMManager) (local dest : option IPort) (conn : string)
  : result VMManager :=
  match local with
  | None => Err ErrLocalPortNil
  | Some local =>
    match vms mngr !! DeviceName local with
    | None => Err (ErrDeviceNotExist (DeviceName local))
    | Some localVM =>
      localPortID ← portIdForName (LocalPortName local);
      destInfo ← match dest with
                 | Some dest =>
                     destPortID ← portIdForName (LocalPortName dest);
                     match vms mngr !! DeviceName dest with
                     | None => Err (ErrDestNotExist (DeviceName dest) (PortName local))
                     | Some destVM => Ok (Some (destVM, destPortID))
                     end
                 | None => Ok None
                 end;
      match Interfaces localVM !! localPortID with
      | Some _ => Err (ErrInterfaceTaken (DeviceName local) localPortID (PortName local))
      | None =>
        iface ← match Links (cfg mngr) !! PortName local with
                | Some linkCfg =>
                    let pci := PCIAddress linkCfg in
                    if String.eqb pci "" then Err (ErrPciRequired (PortName local))
                    else Ok {| Connection := conn; Netdev := ""; Passthrough := pci |}
                | None =>
                    Ok {| Connection := conn;
                          Netdev := linkNetdev localVM localPortID destInfo;
                          Passthrough := "" |}
                end;
        Ok {| cfg := cfg mngr;
              vms := <[DeviceName local :=
                         setInterfaces localVM (<[localPortID := iface]> (Interfaces localVM))]>
                       (vms mngr) |}
      end
    end
  end.

Definition addLinkBothWays (conn : string) (mngr : VMManager)
    (link : option IPort * option IPort) : result VMManager :=
  mngr ← AddLink mngr link.1 link.2 conn;
  AddLink mngr link.2 link.1 conn.

Definition addConnection (mngr : VMManager) (conn : wiringapi.Connection)
  : result VMManager :=
  links ← linksOf conn;
  forM (addLinkBothWays (ConnName conn)) links mngr.

(** The gap-filling pass on one VM's interface map. *)
Definition maxDevID (ifs : gmap Z VMInterface) : Z :=
  foldr (fun kv acc => if acc <? kv.1 then kv.1 else acc) 0 (map_to_list ifs).

Definition usedDevs (ifs : gmap Z VMInterface) : gset Z := dom ifs.

Definition fillStep (used : gset Z) (ifs : gmap Z VMInterface) (iface : Z)
  : gmap Z VMInterface :=
  if bool_decide (iface ∈ used) then ifs else <[iface := emptyInterface]> ifs.

(** The counter of the loop is not wrapped: the loop of the code comes to
    an end only when [maxDevID] is below the largest [int], and this is the
    case the definition covers. *)
Definition fillGaps (ifs : gmap Z VMInterface) : gmap Z VMInterface :=
  foldl (fillStep (usedDevs ifs)) ifs (seqZ 0 (maxDevID ifs + 1)).

Definition fillVM (vm : VM) : VM := setInterfaces vm (fillGaps (Interfaces vm)).

(** Every index from 0 to the largest one is taken. *)
Definition dense (ifs : gmap Z VMInterface) : Prop :=
  forall i, 0 <= i <= maxDevID ifs -> is_Some (ifs !! i).

Definition NewVMManager (c : Config) (data : Data) (basedir size : string)
  : result VMManager :=
  let c := applySize c size in
  st ← assignVMs c data;
  let mngr := {| cfg := c; vms := setPaths basedir <$> st.1 |} in
  mngr ← forM addConnection (Connections data) mngr;
  Ok {| cfg := cfg mngr; vms := fillVM <$> vms mngr |}.

(** The devices a VM is made for, in the order of the three passes, each
    with the function that builds its VM from the ID it is given. *)
Definition controlNames (data : Data) : list string :=
  ServerName <$> filter (fun s => ServerSpecType s = ServerTypeControl) (Servers data).
Definition plainNames (data : Data) : list string :=
  ServerName <$> filter (fun s => ServerSpecType s = ServerTypeDefault) (Servers data).
Definition switchNames (data : Data) : list string := SwitchName <$> Switches data.
Definition deviceNames (data : Data) : list string :=
  controlNames data ++ plainNames data ++ switchNames data.

Definition vmItems (c : Config) (data : Data) : list (string * (Z -> VM)) :=
  ((fun n => (n, controlVM c n)) <$> controlNames data)
  ++ ((fun n => (n, serverVM c n)) <$> plainNames data)
  ++ ((fun n => (n, switchVM c n)) <$> switchNames data).

Definition registerAll (items : list (string * (Z -> VM))) (st : gmap string VM * Z)
  : result (gmap string VM * Z) :=
  forM (fun st it => register st it.1 it.2) items st.

End WithPlatform.

(** [m'] has the VMs of [m] and no other, each with the ID and name it had
    and with every interface it had. *)
Definition extends (m m' : gmap string VM) : Prop :=
  (forall name vm, m !! name = Some vm ->
     exists vm', m' !! name = Some vm' /\ ID vm' = ID vm /\ Name vm' = Name vm /\
       forall i x, Interfaces vm !! i = Some x -> Interfaces vm' !! i = Some x) /\
  (forall name, m !! name = None -> m' !! name = None).

Definition grows (m m' : VMManager) : Prop :=
  cfg m' = cfg m /\ extends (vms m) (vms m').

(** The netdev of a link whose two ends are VMs. *)
Definition pairedNetdev (localPort remotePort : Z) : string :=
  "socket,udp=127.0.0.1:" +:+ GoStr.itoa localPort
  +:+ ",localaddr=127.0.0.1:" +:+ GoStr.itoa remotePort.

Definition pairedInterface (conn : string) (localPort remotePort : Z) : VMInterface :=
  {| Connection := conn; Netdev := pairedNetdev localPort remotePort; Passthrough := "" |}.

(** In the registry [m], the link from port [a] to port [b] of connection
    [conn] is recorded on both devices, each end naming the connection and
    carrying its own UDP port and the UDP port of the other end. *)
Definition linked `{Platform} (m : gmap string VM) (conn : string) (a b : IPort) : Prop :=
  exists vmA vmB ia ib,
    m !! DeviceName a = Some vmA /\ m !! DeviceName b = Some vmB /\
    portIdForName (LocalPortName a) = Ok ia /\ portIdForName (LocalPortName b) = Ok ib /\
    Interfaces vmA !! ia
      = Some (pairedInterface conn (ifacePortFor vmA ia) (ifacePortFor vmB ib)) /\
    Interfaces vmB !! ib
      = Some (pairedInterface conn (ifacePortFor vmB ib) (ifacePortFor vmA ia)).

(** The connection sets nothing but [NAT]. *)
Definition natOnly (s : ConnectionSpec) : Prop :=
  Unbundled s = None /\ Bundled s = None /\ Management s = None /\ MCLAG s = None /\
  MCLAGDomain s = None /\ is_Some (NAT s).

(** A concrete platform, for running the definitions. *)
Definition examplePlatform : Platform :=
  {| SSH_PORT_BASE := 22000;
     KUBE_PORT := 16443;
     REGISTRY_PORT := 31000;
     IF_PORT_BASE := 30000;
     IF_PORT_VM_ID_MULT := 100;
     IF_PORT_PORT_ID_MULT := 1;
     DefaultsFrom := fun c d =>
       {| CPU := if CPU c =? 0 then CPU d else CPU c;
          RAM := if RAM c =? 0 then RAM d else RAM c;
          Disk := if Disk c =? 0 then Disk d else Disk c |};
     OverrideBy := fun c d =>
       {| CPU := if CPU d =? 0 then CPU c else CPU d;
          RAM := if RAM d =? 0 then RAM c else RAM d;
          Disk := if Disk d =? 0 then Disk c else Disk d |};
     filepath_Join := fun a b => a +:+ "/" +:+ b |}.

Definition exampleConfig : Config :=
  {| VMs := {| Control := {| CPU := 0; RAM := 0; Disk := 0 |};
               Server := {| CPU := 0; RAM := 0; Disk := 0 |};
               Switch := {| CPU := 0; RAM := 0; Disk := 0 |} |};
     Links := ∅ |}.

Definition port (device local : string) : IPort :=
  {| PortName := device +:+ "/" +:+ local; LocalPortName := local; DeviceName := device |}.

Definition noSpec : ConnectionSpec :=
  {| Unbundled := None; Bundled := None; Management := None; MCLAG := None;
     MCLAGDomain := None; NAT := None; Fabric := None; VPCLoopback := None |}.

Definition unbundledSpec (server switch : IPort) : ConnectionSpec :=
  {| Unbundled := Some {| UnbundledLink := {| LinkServer := server; LinkSwitch := switch |} |};
     Bundled := None; Management := None; MCLAG := None;
     MCLAGDomain := None; NAT := None; Fabric := None; VPCLoopback := None |}.

Definition natSpec (switch : IPort) : ConnectionSpec :=
  {| Unbundled := None; Bundled := None; Management := None; MCLAG := None;
     MCLAGDomain := None; NAT := Some {| NATLinkSwitch := switch |};
     Fabric := None; VPCLoopback := None |}.

(** One control node, one server and one switch, and a connection whose
    server end names a device that is not declared. *)
Definition danglingData : Data :=
  {| Servers := [ {| ServerName := "control-1"; ServerSpecType := ServerTypeControl |};
                  {| ServerName := "server-1"; ServerSpecType := ServerTypeDefault |} ];
     Switches := [ {| SwitchName := "switch-1" |} ];
     Connections := [ {| ConnName := "server-2--unbundled--switch-1";
                         Spec := unbundledSpec (port "server-2" "port1")
                                               (port "switch-1" "Ethernet1") |} ] |}.

(** The same devices, properly connected. *)
Definition smallData : Data :=
  {| Servers := [ {| ServerName := "control-1"; ServerSpecType := ServerTypeControl |};
                  {| ServerName := "server-1"; ServerSpecType := ServerTypeDefault |} ];
     Switches := [ {| SwitchName := "switch-1" |} ];
     Connections := [ {| ConnName := "server-1--unbundled--switch-1";
                         Spec := unbundledSpec (port "server-1" "port2")
                                               (port "switch-1" "Ethernet3") |} ] |}.

(** No control node; two control nodes; a server and a switch of one name. *)
Definition noControlData : Data :=
  {| Servers := [ {| ServerName := "server-1"; ServerSpecType := ServerTypeDefault |} ];
     Switches := [ {| SwitchName := "switch-1" |} ];
     Connections := [] |}.

Definition twoControlData : Data :=
  {| Servers := [ {| ServerName := "control-1"; ServerSpecType := ServerTypeControl |};
                  {| ServerName := "control-2"; ServerSpecType := ServerTypeControl |} ];
     Switches := [];
     Connections := [] |}.

Definition sameNameData : Data :=
  {| Servers := [ {| ServerName := "control-1"; ServerSpecType := ServerTypeControl |};
                  {| ServerName := "leaf-1"; ServerSpecType := ServerTypeDefault |} ];
     Switches := [ {| SwitchName := "leaf-1" |} ];
     Connections := [] |}.

(** Two servers on one switch. *)
Definition twoServerData : Data :=
  {| Servers := [ {| ServerName := "control-1"; ServerSpecType := ServerTypeControl |};
                  {| ServerName := "server-1"; ServerSpecType := ServerTypeDefault |};
                  {| ServerName := "server-2"; ServerSpecType := ServerTypeDefault |} ];
     Switches := [ {| SwitchName := "switch-1" |} ];
     Connections := [ {| ConnName := "server-1--unbundled--switch-1";
                         Spec := unbundledSpec (port "server-1" "port1")
                                               (port "switch-1" "Ethernet1") |};
                      {| ConnName := "server-2--unbundled--switch-1";
                         Spec := unbundledSpec (port "server-2" "port1")
                                               (port "switch-1" "Ethernet2") |} ] |}.

(** The same devices, with a NAT connection on the switch. *)
Definition natData : Data :=
  {| Servers := [ {| ServerName := "control-1"; ServerSpecType := ServerTypeControl |};
                  {| ServerName := "server-1"; ServerSpecType := ServerTypeDefault |} ];
     Switches := [ {| SwitchName := "switch-1" |} ];
     Connections := [ {| ConnName := "switch-1--nat";
                         Spec := natSpec (port "switch-1" "Ethernet0") |} ] |}.

Definition registryOf (data : Data) : VMManager :=
  match @NewVMManager examplePlatform exampleConfig data "/vlab" "default" with
  | Ok mngr => mngr
  | Err _ => {| cfg := exampleConfig; vms := ∅ |}
  end.

End Topology.

(** ** Overlay objects: the fields and method results of [vpcapi] read here *)

Module vpcapi.

Record VPCSubnet : Type := { Subnet : string }.
Record VPC : Type := { VPCName : string; Subnets : gmap string VPCSubnet }.

(** [AttVPCName] and [AttSubnetName] are what [Spec.VPCName()] and
    [Spec.SubnetName()] return. *)
Record VPCAttachment : Type := {
  AttName : string;
  AttConnection : string;
  AttVPCName : string;
  AttSubnetName : string
}.

(** [PeeringVPCs] is what [Spec.VPCs()] returns, [None] being its error. *)
Record VPCPeering : Type := {
  PeeringName : string;
  PeeringVPCs : option (string * string)
}.

Record ExternalPeering : Type := {
  ExtPeeringName : string;
  PermitVPCName : string;
  PermitVPCSubnets : list string;
  PermitExternalName : string;
  PermitExternalPrefixes : list string
}.

End vpcapi.

(** ** The connectivity verification engine *)

Module Connectivity.
Import wiringapi vpcapi.

Definition CONNECTION_TYPE_UNBUNDLED : string := "unbundled".
Definition CONNECTION_TYPE_BUNDLED : string := "bundled".
Definition CONNECTION_TYPE_MCLAG : string := "mclag".

Record ServerConnectivityTestConfig : Type := {
  VPC_ : bool;
  VPCPing : Z;
  VPCIperf : Z;
  Ext : bool;
  ExtCurl : bool
}.

Record Server : Type := {
  Name : string;
  VM : Topology.VM;
  ConnectedTo : list string;
  ConnectionType : string;
  WiringServer : wiringapi.Server;
  Connection : option wiringapi.Connection;
  VPCAttachment : option vpcapi.VPCAttachment;
  VPC : option vpcapi.VPC;
  Subnet : string;
  ExternalPeering : option vpcapi.ExternalPeering;
  VPCPeers : list string;
  Externals : list string;
  IP : string
}.

Definition setVPCPeers (s : Server) (peers : list string) : Server :=
  {| Name := Name s; VM := VM s; ConnectedTo := ConnectedTo s;
     ConnectionType := ConnectionType s; WiringServer := WiringServer s;
     Connection := Connection s; VPCAttachment := VPCAttachment s; VPC := VPC s;
     Subnet := Subnet s; ExternalPeering := ExternalPeering s;
     VPCPeers := peers; Externals := Externals s; IP := IP s |}.

Definition setExternal (s : Server) (p : vpcapi.ExternalPeering) (exts : list string)
  : Server :=
  {| Name := Name s; VM := VM s; ConnectedTo := ConnectedTo s;
     ConnectionType := ConnectionType s; WiringServer := WiringServer s;
     Connection := Connection s; VPCAttachment := VPCAttachment s; VPC := VPC s;
     Subnet := Subnet s; ExternalPeering := Some p;
     VPCPeers := VPCPeers s; Externals := exts; IP := IP s |}.

Record Iperf3ReportSum : Type := { Bytes : Z; BitsPerSecond : spec_float }.
Record Iperf3ReportEnd : Type := { SumSent : Iperf3ReportSum; SumReceived : Iperf3ReportSum }.
Record Iperf3Report : Type := { Intervals : list Iperf3ReportSum; End_ : Iperf3ReportEnd }.

(** A [float64] is a [spec_float] that is valid at precision 53 and maximal
    exponent 1024. *)
Definition isFloat64 (x : spec_float) : bool := valid_binary 53 1024 x.

(** The real number [(-1)^s * m * 2^e] compared with the integer [t]; both
    sides are scaled by the power of two that clears the exponent. *)
Definition finiteCompare (s : bool) (m : positive) (e : Z) (t : Z) : comparison :=
  cond_Zopp s (Z.pos m) * 2 ^ Z.max e 0 ?= t * 2 ^ Z.max (- e) 0.

(** The number a float stands for is below the integer [t]. *)
Definition valueBelow (x : spec_float) (t : Z) : Prop :=
  match x with
  | S754_zero _ => 0 < t
  | S754_finite s m e => finiteCompare s m e t = Lt
  | S754_infinity s => s = true
  | S754_nan => False
  end.

(** The number a float stands for is the integer [t]. *)
Definition valueIs (x : spec_float) (t : Z) : Prop :=
  match x with
  | S754_zero _ => t = 0
  | S754_finite s m e => finiteCompare s m e t = Eq
  | S754_infinity _ | S754_nan => False
  end.

(** What lies outside the program: the library calls whose code is not part
    of it, the hosts reached over SSH, and the order in which Go walks a map
    (any order, possibly a different one on every walk of a changed map). *)
Class World : Type := {
  Endpoints : ConnectionSpec -> option (list string * list string);
  remoteRun : Z -> string -> Z -> string * bool;
  ParseCIDR : string -> option (string * string);
  TrimSpace : string -> string;
  jsonUnmarshalReport : string -> option Iperf3Report;
  rangeServers : gmap string Server -> list (string * Server);
  rangeServers_perm : forall m, rangeServers m ≡ₚ map_to_list m
}.

(** The notices Phase B writes with [slog.Info]. *)
Inductive notice : Type :=
  | SkipNoVM (server : string)
  | SkipMultipleServers (server : string)
  | SkipMultipleConnections (server : string)
  | SkipNoConnection (server : string)
  | SkipMultipleAttachments (server : string)
  | SkipNoAttachment (server : string)
  | Found (server : string).

(** How one round of a loop inside [serverLoop] ends. *)
Inductive flow (A : Type) : Type :=
  | Next (a : A)
  | ContinueServerLoop (n : notice)
  | Return (e : error).
Arguments Next {A} a.
Arguments ContinueServerLoop {A} n.
Arguments Return {A} e.

Fixpoint forFlow {A S : Type} (body : S -> A -> flow S) (xs : list A) (s : S) : flow S :=
  match xs with
  | [] => Next s
  | x :: xs' =>
      match body s x with
      | Next s' => forFlow body xs' s'
      | ContinueServerLoop n => ContinueServerLoop n
      | Return e => Return e
      end
  end.

Fixpoint containsStr (l : list string) (x : string) : bool :=
  match l with
  | [] => false
  | y :: l' => String.eqb y x || containsStr l' x
  end.

Fixpoint insertSorted (x : string) (l : list string) : list string :=
  match l with
  | [] => [x]
  | y :: l' => if String.leb x y then x :: l else y :: insertSorted x l'
  end.

(** [slices.Sort] on a slice of strings. *)
Definition sortStrings (l : list string) : list string := foldr insertSorted [] l.

(** The fields of [srv] the loop over connections sets. *)
Record chosenConn : Type := {
  ccConnection : wiringapi.Connection;
  ccConnectedTo : list string;
  ccConnectionType : string
}.

Definition connectionTypeOf (s : ConnectionSpec) : string :=
  match Unbundled s, Bundled s, MCLAG s with
  | Some _, _, _ => CONNECTION_TYPE_UNBUNDLED
  | None, Some _, _ => CONNECTION_TYPE_BUNDLED
  | None, None, Some _ => CONNECTION_TYPE_MCLAG
  | None, None, None => ""
  end.

Section WithWorld.
Context `{Topology.Platform} `{World}.

Definition sshPort (vm : Topology.VM) : Z := Topology.sshPortFor (Topology.ID vm).

(** [svc.ssh]: the command's output and whether the error is non-nil. *)
Definition ssh (server : Server) (cmd : string) (timeout : Z) : string * bool :=
  let timeout := if timeout =? 0 then 5 else timeout in
  remoteRun (sshPort (VM server)) cmd timeout.

(** *** Phase B: the server test universe *)

Definition connStep (name : string) (acc : option chosenConn) (some : wiringapi.Connection)
  : flow (option chosenConn) :=
  match Unbundled (Spec some), Bundled (Spec some), MCLAG (Spec some) with
  | None, None, None => Next acc
  | _, _, _ =>
    match Endpoints (Spec some) with
    | None => Return (ErrEndpoints (ConnName some))
    | Some (switches, servers) =>
      if bool_decide (length servers ≠ 1%nat) then ContinueServerLoop (SkipMultipleServers name)
      else if negb (containsStr servers name) then Next acc
      else match acc with
           | Some _ => ContinueServerLoop (SkipMultipleConnections name)
           | None => Next (Some {| ccConnection := some; ccConnectedTo := switches;
                                   ccConnectionType := connectionTypeOf (Spec some) |})
           end
    end
  end.

(** The loop over VPC attachments: the attachment kept, [srv.Subnet], and
    the notices written on the way. *)
Definition attStep (name conn : string)
    (acc : option vpcapi.VPCAttachment * string * list notice) (some : vpcapi.VPCAttachment)
  : option vpcapi.VPCAttachment * string * list notice :=
  let '(att, subnet, notes) := acc in
  if negb (String.eqb (AttConnection some) conn) then acc
  else match att with
       | Some _ => (att, subnet, notes ++ [SkipMultipleAttachments name])
       | None => (Some some, AttSubnetName some, notes)
       end.

Definition vpcStep (name : string) (att : vpcapi.VPCAttachment) (acc : option vpcapi.VPC)
    (some : vpcapi.VPC) : result (option vpcapi.VPC) :=
  if negb (String.eqb (AttVPCName att) (VPCName some)) then Ok acc
  else match Subnets some !! AttSubnetName att with
       | None => Err (ErrSubnetNotFound name (AttName att))
       | Some _ => Ok (Some some)
       end.

Definition ipCommand : string := "ip a s | grep 'inet 10\.0' | awk '/inet / {print $2}'".

Definition checkServer (mngr : Topology.VMManager) (data : Data)
    (attachments : list vpcapi.VPCAttachment) (vpcs : list vpcapi.VPC)
    (st : gmap string Server * list notice) (server : wiringapi.Server)
  : result (gmap string Server * list notice) :=
  let name := ServerName server in
  if IsControl server then Ok st
  else match Topology.vms mngr !! name with
  | None => Ok (st.1, st.2 ++ [SkipNoVM name])
  | Some vm =>
    match forFlow (connStep name) (Connections data) None with
    | Return e => Err e
    | ContinueServerLoop n => Ok (st.1, st.2 ++ [n])
    | Next None => Ok (st.1, st.2 ++ [SkipNoConnection name])
    | Next (Some cc) =>
      let '(att, subnet, notes) :=
        foldl (attStep name (ConnName (ccConnection cc))) (None, "", []) attachments in
      match att with
      | None => Ok (st.1, st.2 ++ notes ++ [SkipNoAttachment name])
      | Some att =>
        vpc ← forM (vpcStep name att) vpcs None;
        let srv := {| Name := name; VM := vm; ConnectedTo := ccConnectedTo cc;
                      ConnectionType := ccConnectionType cc; WiringServer := server;
                      Connection := Some (ccConnection cc); VPCAttachment := Some att;
                      VPC := vpc; Subnet := subnet; ExternalPeering := None;
                      VPCPeers := []; Externals := []; IP := "" |} in
        let '(out, failed) := ssh srv ipCommand 0 in
        if failed then Err (ErrGetIP name)
        else match ParseCIDR (TrimSpace out) with
        | None => Err (ErrParseIP name)
        | Some (ip, ipNet) =>
          match vpc with
          | None => Err ErrNilDereference
          | Some v =>
            match Subnets v !! subnet with
            | None => Err ErrNilDereference
            | Some sn =>
              if negb (String.eqb ipNet (vpcapi.Subnet sn)) then Err (ErrSubnetMismatch name)
              else Ok (<[name := {| Name := name; VM := vm; ConnectedTo := ccConnectedTo cc;
                                    ConnectionType := ccConnectionType cc;
                                    WiringServer := server;
                                    Connection := Some (ccConnection cc);
                                    VPCAttachment := Some att; VPC := vpc; Subnet := subnet;
                                    ExternalPeering := None; VPCPeers := [];
                                    Externals := []; IP := ip |}]> st.1,
                       st.2 ++ notes ++ [Found name])
            end
          end
        end
      end
    end
  end.

Definition buildServers (mngr : Topology.VMManager) (data : Data)
    (attachments : list vpcapi.VPCAttachment) (vpcs : list vpcapi.VPC)
  : result (gmap string Server * list notice) :=
  forM (checkServer mngr data attachments vpcs) (Servers data) (∅, []).

(** *** Phase C: expected connectivity *)

(** [server.VPC.Name], which panics on a nil [VPC]. *)
Definition vpcNameOf (s : Server) : result string :=
  match VPC s with
  | Some v => Ok (VPCName v)
  | None => Err ErrNilDereference
  end.

Definition collectStep (vpc1 vpc2 : string) (acc : list string * list string)
    (kv : string * Server) : result (list string * list string) :=
  n ← vpcNameOf kv.2;
  let l1 := if String.eqb n vpc1 then acc.1 ++ [Name kv.2] else acc.1 in
  let l2 := if String.eqb n vpc2 then acc.2 ++ [Name kv.2] else acc.2 in
  Ok (l1, l2).

(** [servers[a].VPCPeers = append(servers[a].VPCPeers, b)] unless present. *)
Definition addPeer (servers : gmap string Server) (a b : string)
  : result (gmap string Server) :=
  match servers !! a with
  | None => Err ErrNilDereference
  | Some sa =>
      if containsStr (VPCPeers sa) b then Ok servers
      else Ok (<[a := setVPCPeers sa (VPCPeers sa ++ [b])]> servers)
  end.

Definition pairStep (server1 : string) (servers : gmap string Server) (server2 : string)
  : result (gmap string Server) :=
  servers ← addPeer servers server1 server2;
  addPeer servers server2 server1.

Definition peeringStep (servers : gmap string Server) (peering : vpcapi.VPCPeering)
  : result (gmap string Server) :=
  match PeeringVPCs peering with
  | None => Err (ErrPeeringVPCs (PeeringName peering))
  | Some (vpc1, vpc2) =>
    '(vpc1Servers, vpc2Servers) ← forM (collectStep vpc1 vpc2) (rangeServers servers) ([], []);
    if bool_decide (length vpc1Servers < 1)%nat
    then Err (ErrNotEnoughServers (PeeringName peering) vpc1)
    else if bool_decide (length vpc2Servers < 1)%nat
    then Err (ErrNotEnoughServers (PeeringName peering) vpc2)
    else forM (fun servers server1 => forM (pairStep server1) vpc2Servers servers)
              vpc1Servers servers
  end.

Definition subnetStep (peering : vpcapi.ExternalPeering) (key : string)
    (servers : gmap string Server) (subnet : string) : result (gmap string Server) :=
  match servers !! key with
  | None => Err ErrNilDereference
  | Some server =>
    if negb (String.eqb (Subnet server) subnet) then Ok servers
    else if containsStr (Externals server) (PermitExternalName peering) then Ok servers
    else match ExternalPeering server with
         | Some _ => Err (ErrMultipleExternal (Name server))
         | None => Ok (<[key := setExternal server peering
                                   (Externals server ++ [PermitExternalName peering])]> servers)
         end
  end.

Definition externalServerStep (peering : vpcapi.ExternalPeering)
    (servers : gmap string Server) (kv : string * Server) : result (gmap string Server) :=
  n ← vpcNameOf kv.2;
  if negb (String.eqb n (PermitVPCName peering)) then Ok servers
  else forM (subnetStep peering kv.1) (PermitVPCSubnets peering) servers.

Definition externalStep (servers : gmap string Server) (peering : vpcapi.ExternalPeering)
  : result (gmap string Server) :=
  let includeDefault := existsb (fun p => String.eqb p "0.0.0.0/0") (PermitExternalPrefixes peering) in
  if negb includeDefault then Err (ErrNoDefaultRoute (ExtPeeringName peering))
  else forM (externalServerStep peering) (rangeServers servers) servers.

Definition vpcPeerings (peerings : list vpcapi.VPCPeering) (servers : gmap string Server)
  : result (gmap string Server) :=
  forM peeringStep peerings servers.

Definition externalPeerings (peerings : list vpcapi.ExternalPeering)
    (servers : gmap string Server) : result (gmap string Server) :=
  forM externalStep peerings servers.

Definition expectedConnectivity (peerings : list vpcapi.VPCPeering)
    (externals : list vpcapi.ExternalPeering) (servers : gmap string Server)
  : result (gmap string Server) :=
  servers ← vpcPeerings peerings servers;
  externalPeerings externals servers.

(** *** Phase D: the checks *)

(** The five log lines of the ping check. *)
Inductive pingOutcome : Type :=
  | PingExpectedFailed
  | PingNotExpectedNotFailed
  | PingFailedWithoutLossMessage
  | PingExpectedSucceeded
  | PingNotExpectedFailed.

(** The value of [failed] after each of them. *)
Definition pingFailed (o : pingOutcome) : bool :=
  match o with
  | PingExpectedFailed | PingNotExpectedNotFailed | PingFailedWithoutLossMessage => true
  | PingExpectedSucceeded | PingNotExpectedFailed => false
  end.

Definition lossMessage : string := "0 received, 100% packet loss".

(** Lines 503-525; [err] says whether the SSH error is non-nil. *)
Definition pingClassify (peerConnected : bool) (out : string) (err : bool)
  : result pingOutcome :=
  if peerConnected && err then Ok PingExpectedFailed
  else if negb peerConnected && negb err then Ok PingNotExpectedNotFailed
  else if negb peerConnected && err && (0 <? Z.of_nat (String.length out))
          && negb (GoStr.Contains out lossMessage)
  then Ok PingFailedWithoutLossMessage
  else if peerConnected then Ok PingExpectedSucceeded
  else if negb peerConnected then Ok PingNotExpectedFailed
  else Err ErrUnexpectedResult.

(** The float64 value of the constant [8500000000]: it is
    [8912896000000000 * 2^-20], with a 53-bit mantissa. *)
Definition speedFloor : spec_float := S754_finite false 8912896000000000 (-20).

(** [report.End.SumSent.BitsPerSecond < 8500000000]. *)
Definition speedTooLow (report : Iperf3Report) : bool :=
  SFltb (BitsPerSecond (SumSent (End_ report))) speedFloor.

Definition parseIperf3Report (data : string) : option Iperf3Report :=
  jsonUnmarshalReport data.

(** What the client goroutine leaves in [passed]. *)
Definition iperfClient (passed : bool) (res : string * bool) : bool :=
  if res.2 then false
  else match parseIperf3Report res.1 with
       | None => false
       | Some report => if speedTooLow report then false else passed
       end.

(** What the server goroutine leaves in [passed]. *)
Definition iperfServer (passed : bool) (res : string * bool) : bool :=
  if res.2 then false else passed.

Definition uwrap (z : Z) : Z := z mod 2 ^ 64.

Definition pingCommand (count : Z) (ip : string) : string :=
  "ping -c " +:+ GoStr.itoa count +:+ " -W 1 " +:+ ip.

Definition iperfClientCommand (duration : Z) (ip : string) : string :=
  "toolbox -q timeout " +:+ GoStr.itoa (uwrap (duration + 5)) +:+ " iperf3 -J -c " +:+ ip
  +:+ " -t " +:+ GoStr.itoa duration.

Definition iperfServerCommand (duration : Z) : string :=
  "toolbox -q timeout " +:+ GoStr.itoa (uwrap (duration + 7)) +:+ " iperf3 -s -1".

Definition curlCommand : string := "toolbox -q timeout 5 curl --insecure https://8.8.8.8".

Inductive check : Type :=
  | PingCheck (src dst : string) (outcome : pingOutcome)
  | IperfCheck (src dst : string) (ok : bool)
  | CurlCheck (src external : string) (ok : bool).

Record tally : Type := { totalTested : Z; totalPassed : Z; executed : list check }.

(** One round of the inner loop over [sortedServer] (lines 491-610). The two
    goroutines only ever store [false] into [passed] and are joined before it
    is read, so their effect is the conjunction of what each leaves. *)
Definition pairCheck (c : ServerConnectivityTestConfig) (server peer : Server) (t : tally)
  : result tally :=
  let peerConnected := containsStr (VPCPeers server) (Name peer) in
  '(passed, checks) ←
    (if 0 <? VPCPing c then
       let '(out, err) := ssh server (pingCommand (VPCPing c) (IP peer))
                              (GoStr.wrap (VPCPing c + 5)) in
       o ← pingClassify peerConnected out err;
       Ok (negb (pingFailed o), [PingCheck (Name server) (Name peer) o])
     else Ok (true, []));
  let iperf :=
    if peerConnected && (0 <? VPCIperf c) then
      let timeout := GoStr.wrap (VPCIperf c + 10) in
      Some (ssh peer (iperfServerCommand (VPCIperf c)) timeout,
            ssh server (iperfClientCommand (VPCIperf c) (IP peer)) timeout)
    else None in
  let '(passed, checks) :=
    match iperf with
    | Some (sres, cres) =>
        (iperfClient (iperfServer passed sres) cres,
         checks ++ [IperfCheck (Name server) (Name peer)
                               (iperfClient (iperfServer true sres) cres)])
    | None => (passed, checks)
    end in
  Ok {| totalTested := totalTested t + 1;
        totalPassed := if passed then totalPassed t + 1 else totalPassed t;
        executed := executed t ++ checks |}.

Definition curlCheck (c : ServerConnectivityTestConfig) (server : Server) (t : tally)
    (external : string) : tally :=
  if ExtCurl c then
    let '(out, err) := ssh server curlCommand 10 in
    let ok := negb err && GoStr.Contains out "302 Moved" in
    {| totalTested := totalTested t + 1;
       totalPassed := if ok then totalPassed t + 1 else totalPassed t;
       executed := executed t ++ [CurlCheck (Name server) external ok] |}
  else t.

(** One round of the outer loop (lines 479-642). [slices.Sort] rewrites the
    server's [VPCPeers] in place. *)
Definition serverChecks (c : ServerConnectivityTestConfig) (sortedServer : list string)
    (st : gmap string Server * tally) (name : string) : result (gmap string Server * tally) :=
  match st.1 !! name with
  | None => Err ErrNilDereference
  | Some server0 =>
    let server := setVPCPeers server0 (sortStrings (VPCPeers server0)) in
    let servers := <[name := server]> st.1 in
    t ← (if VPC_ c then
           forM (fun t vpcPeer =>
                   if String.eqb name vpcPeer then Ok t
                   else match servers !! vpcPeer with
                        | None => Err ErrNilDereference
                        | Some peer => pairCheck c server peer t
                        end)
                sortedServer st.2
         else Ok st.2);
    let t := if Ext c then foldl (curlCheck c server) t (Externals server) else t in
    Ok (servers, t)
  end.

Definition runChecks (c : ServerConnectivityTestConfig) (sortedServer : list string)
    (servers : gmap string Server) : result tally :=
  st ← forM (serverChecks c sortedServer) sortedServer
            (servers, {| totalTested := 0; totalPassed := 0; executed := [] |});
  Ok st.2.

(** What the run hands back when no fatal error stops it: the notices of
    Phase B, the tally of Phase D and the process exit code. *)
Record verdict : Type := { notices : list notice; checks : tally; exitCode : Z }.

(** [TestServerConnectivity] from Phase B on. *)
Definition TestServerConnectivity (c : ServerConnectivityTestConfig)
    (mngr : Topology.VMManager) (data : Data)
    (attachments : list vpcapi.VPCAttachment) (peerings : list vpcapi.VPCPeering)
    (vpcs : list vpcapi.VPC) (externals : list vpcapi.ExternalPeering)
  : result verdict :=
  '(servers, notes) ← buildServers mngr data attachments vpcs;
  let sortedServer := sortStrings ((fun kv : string * Server => Name kv.2) <$> rangeServers servers) in
  servers ← vpcPeerings peerings servers;
  servers ← externalPeerings externals servers;
  t ← runChecks c sortedServer servers;
  Ok {| notices := notes; checks := t;
        exitCode := if 0 <? totalTested t - totalPassed t then 1 else 0 |}.

End WithWorld.

(** *** The words of the claims *)

(** The permit of an external peering matches the server's VPC and subnet. *)
Definition permits (p : vpcapi.ExternalPeering) (s : Server) : Prop :=
  VPCName <$> VPC s = Some (PermitVPCName p) /\ Subnet s ∈ PermitVPCSubnets p.

(** The expected-peer list of the server stored under [x]. *)
Definition peersOf (servers : gmap string Server) (x : string) : list string :=
  from_option VPCPeers [] (servers !! x).

(** The universe as Phase B leaves it: every server is stored under its
    name, has a VPC, and has no peer and no external yet. *)
Definition fresh (servers : gmap string Server) : Prop :=
  forall k s, servers !! k = Some s ->
    Name s = k /\ is_Some (VPC s) /\ VPCPeers s = [] /\ Externals s = [] /\
    ExternalPeering s = None.

(** Phase B only adds: servers to the universe and notices to the log. *)
Definition universeGrows (st st' : gmap string Server * list notice) : Prop :=
  (forall k, is_Some (st.1 !! k) -> is_Some (st'.1 !! k)) /\
  (forall n, n ∈ st.2 -> n ∈ st'.2).

(** Every peer list is duplicate-free and the peer relation is symmetric. *)
Definition peersConsistent (servers : gmap string Server) : Prop :=
  (forall x, NoDup (peersOf servers x)) /\
  (forall x y, y ∈ peersOf servers x -> x ∈ peersOf servers y).

(** One server never holds two externals. *)
Definition oneExternal (servers : gmap string Server) : Prop :=
  forall k s, servers !! k = Some s ->
    (length (Externals s) <= 1)%nat /\ (ExternalPeering s = None -> Externals s = []).

(** [servers'] has the servers of [servers] and no other, each with the
    name, VPC and subnet it had and with every external it had. *)
Definition externalsGrow (servers servers' : gmap string Server) : Prop :=
  (forall k s, servers !! k = Some s ->
     exists s', servers' !! k = Some s' /\ Name s' = Name s /\ VPC s' = VPC s /\
       Subnet s' = Subnet s /\ VPCPeers s' = VPCPeers s /\
       forall x, x ∈ Externals s -> x ∈ Externals s') /\
  (forall k, servers !! k = None -> servers' !! k = None).

(** [servers'] has the servers of [servers] and no other, each as it was
    but for its peer list. *)
Definition peersGrow (servers servers' : gmap string Server) : Prop :=
  (forall k s, servers !! k = Some s ->
     exists s', servers' !! k = Some s' /\ Name s' = Name s /\ VPC s' = VPC s /\
       Subnet s' = Subnet s /\ Externals s' = Externals s /\
       ExternalPeering s' = ExternalPeering s) /\
  (forall k, servers !! k = None -> servers' !! k = None).

(** *** A concrete world, for running the definitions *)

Definition exampleEndpoints (s : ConnectionSpec) : option (list string * list string) :=
  let ends (links : list ServerToSwitchLink) :=
    ((fun l => DeviceName (LinkSwitch l)) <$> links,
     (fun l => DeviceName (LinkServer l)) <$> links) in
  match Unbundled s, Bundled s, MCLAG s with
  | Some u, _, _ => Some (ends [UnbundledLink u])
  | None, Some b, _ => Some (ends (BundledLinks b))
  | None, None, Some m => Some (ends (MCLAGLinks m))
  | None, None, None => Some ([], [])
  end.

Definition exampleReport (bps : spec_float) : Iperf3Report :=
  {| Intervals := [];
     End_ := {| SumSent := {| Bytes := 0; BitsPerSecond := bps |};
                SumReceived := {| Bytes := 0; BitsPerSecond := bps |} |} |}.

(** Hosts answer the address probe with 10.0.1.5/24 (the host behind SSH
    port 22001) or 10.0.2.5/24 (any other), and fail every other command;
    a report reads as 8,500,000,000 bits per second when it is the text
    "floor" and as half of that when it is the text "slow". *)
Definition exampleWorld : World :=
  {| Endpoints := exampleEndpoints;
     remoteRun := fun port cmd _ =>
       if String.eqb cmd ipCommand
       then (if port =? 22001 then "10.0.1.5/24" else "10.0.2.5/24", false)
       else ("", true);
     ParseCIDR := fun s =>
       if String.eqb s "10.0.1.5/24" then Some ("10.0.1.5", "10.0.1.0/24")
       else if String.eqb s "10.0.2.5/24" then Some ("10.0.2.5", "10.0.2.0/24")
       else None;
     TrimSpace := fun s => s;
     jsonUnmarshalReport := fun s =>
       if String.eqb s "floor"
       then Some (exampleReport (S754_finite false 8912896000000000 (-20)))
       else if String.eqb s "slow"
       then Some (exampleReport (S754_finite false 8912896000000000 (-21)))
       else None;
     rangeServers := map_to_list;
     rangeServers_perm := fun m => reflexivity (map_to_list m) |}.

Definition universeOf (data : Data) (atts : list vpcapi.VPCAttachment)
  : gmap string Server * list notice :=
  match @buildServers Topology.examplePlatform exampleWorld (Topology.registryOf data) data
          atts [ {| VPCName := "vpc-1";
                    Subnets := {[ "default" := {| vpcapi.Subnet := "10.0.1.0/24" |} ]} |};
                 {| VPCName := "vpc-2";
                    Subnets := {[ "default" := {| vpcapi.Subnet := "10.0.2.0/24" |} ]} |} ] with
  | Ok st => st
  | Err _ => (∅, [])
  end.

Definition attachment (vpc conn : string) : vpcapi.VPCAttachment :=
  {| AttName := vpc +:+ "--" +:+ conn; AttConnection := conn;
     AttVPCName := vpc; AttSubnetName := "default" |}.

Definition exampleVPCs : list vpcapi.VPC :=
  [ {| VPCName := "vpc-1"; Subnets := {[ "default" := {| vpcapi.Subnet := "10.0.1.0/24" |} ]} |};
    {| VPCName := "vpc-2"; Subnets := {[ "default" := {| vpcapi.Subnet := "10.0.2.0/24" |} ]} |} ].

(** Two attachments bound to the one connection of server-1. *)
Definition twoAttachments : list vpcapi.VPCAttachment :=
  [ attachment "vpc-1" "server-1--unbundled--switch-1";
    attachment "vpc-2" "server-1--unbundled--switch-1" ].

Definition oneAttachment : list vpcapi.VPCAttachment :=
  [ attachment "vpc-1" "server-1--unbundled--switch-1" ].

Definition eachAttached : list vpcapi.VPCAttachment :=
  [ attachment "vpc-1" "server-1--unbundled--switch-1";
    attachment "vpc-2" "server-2--unbundled--switch-1" ].

Definition externalPeering (name external : string) : vpcapi.ExternalPeering :=
  {| ExtPeeringName := name; PermitVPCName := "vpc-1"; PermitVPCSubnets := ["default"];
     PermitExternalName := external; PermitExternalPrefixes := ["0.0.0.0/0"] |}.

Definition vpcPeering (name vpc1 vpc2 : string) : vpcapi.VPCPeering :=
  {| PeeringName := name; PeeringVPCs := Some (vpc1, vpc2) |}.

Definition curlOnly : ServerConnectivityTestConfig :=
  {| VPC_ := false; VPCPing := 0; VPCIperf := 0; Ext := true; ExtCurl := true |}.

Definition noChecks : ServerConnectivityTestConfig :=
  {| VPC_ := false; VPCPing := 0; VPCIperf := 0; Ext := false; ExtCurl := false |}.

End Connectivity.

(** * Properties *)

(** ** Loops *)

Module Loops.

Lemma forM_cons {A S : Type} (body : S -> A -> result S) (x : A) (xs : list A) (s : S) :
  forM body (x :: xs) s = (s' ← body s x; forM body xs s').
Proof. reflexivity. Qed.

Lemma forM_app {A S : Type} (body : S -> A -> result S) (xs ys : list A) (s : S) :
  forM body (xs ++ ys) s = (s' ← forM body xs s; forM body ys s').
Proof.
  revert s. induction xs as [|x xs IH]; intros s; simpl; [done|].
  destruct (body s x); simpl; [apply IH|done].
Qed.

(** A relation every successful round respects is respected by the loop. *)
Lemma forM_preserves {A S : Type} (R : S -> S -> Prop) (body : S -> A -> result S)
    (xs : list A) (s s' : S) :
  (forall s, R s s) ->
  (forall s1 s2 s3, R s1 s2 -> R s2 s3 -> R s1 s3) ->
  (forall s x s', x ∈ xs -> body s x = Ok s' -> R s s') ->
  forM body xs s = Ok s' -> R s s'.
Proof.
  intros Hrefl Htrans. revert s. induction xs as [|x xs IH]; intros s Hstep Hrun; simpl in *.
  - by simplify_eq.
  - destruct (body s x) as [s1|] eqn:Hb; simpl in *; [|done].
    apply (Htrans _ s1).
    + apply (Hstep s x); [by left|done].
    + apply IH; [|done]. intros s2 y s3 Hy. apply Hstep. by right.
Qed.

(** A successful loop ran the round of each element: from a state the loop
    reached, to a state it went on from. *)
Lemma forM_round {A S : Type} (R : S -> S -> Prop) (body : S -> A -> result S)
    (xs : list A) (x : A) (s s' : S) :
  (forall s, R s s) ->
  (forall s1 s2 s3, R s1 s2 -> R s2 s3 -> R s1 s3) ->
  (forall s x s', x ∈ xs -> body s x = Ok s' -> R s s') ->
  x ∈ xs -> forM body xs s = Ok s' ->
  exists s1 s2, R s s1 /\ body s1 x = Ok s2 /\ R s2 s'.
Proof.
  intros Hrefl Htrans Hstep Hx Hrun.
  apply list_elem_of_split in Hx as (pre & post & ->).
  rewrite forM_app in Hrun.
  destruct (forM body pre s) as [s1|] eqn:Hpre; simpl in Hrun; [|done].
  destruct (body s1 x) as [s2|] eqn:Hb; simpl in Hrun; [|done].
  exists s1, s2. split; [|split; [done|]].
  - apply (forM_preserves R body pre); [done..| |done].
    intros ??? Hy. apply Hstep. apply elem_of_app. by left.
  - apply (forM_preserves R body post); [done..| |done].
    intros ??? Hy. apply Hstep. apply elem_of_app. right. by right.
Qed.

(** A loop with an element whose round always fails, fails. *)
Lemma forM_fails {A S : Type} (body : S -> A -> result S) (xs : list A) (x : A) (s : S) :
  x ∈ xs -> (forall s, exists e, body s x = Err e) -> exists e, forM body xs s = Err e.
Proof.
  intros Hx Hfail. revert s. induction xs as [|y xs IH]; intros s.
  - by apply elem_of_nil in Hx.
  - simpl. apply elem_of_cons in Hx as [<-|Hx].
    + destruct (Hfail s) as [e ->]. eauto.
    + destruct (body s y); simpl; [by apply IH|eauto].
Qed.

End Loops.

(** ** Strings and port names *)

Module PortNames.
Import GoStr.

Lemma HasPrefix_app (p s : string) : HasPrefix (p +:+ s) p = true.
Proof.
  induction p as [|c p IH]; simpl; [done|].
  by rewrite Ascii.eqb_refl.
Qed.

Lemma dropPrefix_app (p s : string) : dropPrefix (p +:+ s) p = s.
Proof. induction p as [|c p IH]; simpl; done. Qed.

Lemma HasPrefix_split (s p : string) :
  HasPrefix s p = true -> s = p +:+ dropPrefix s p.
Proof.
  revert s. induction p as [|c p IH]; intros s Hp; simpl in *.
  - done.
  - destruct s as [|d s]; [done|].
    destruct (Ascii.eqb c d) eqn:Hcd; [|done].
    apply Ascii.eqb_eq in Hcd as ->.
    change (String d s = String d (p +:+ dropPrefix s p)). f_equal. by apply IH.
Qed.

Lemma wrap_small (z : Z) : min_int <= z <= max_int -> wrap z = z.
Proof.
  unfold wrap, min_int, max_int. intros Hz.
  rewrite Z.mod_small; lia.
Qed.

Lemma Atoi_range (s : string) (n : Z) : Atoi s = Some n -> min_int <= n <= max_int.
Proof.
  unfold Atoi. intros Ha.
  repeat case_match; simplify_eq; lia.
Qed.

Lemma digitsFrom_string_of_uint (d : Decimal.uint) (acc : Z) :
  digitsFrom (NilEmpty.string_of_uint d) acc = Some (uintValue d acc).
Proof. revert acc. induction d; intros acc; simpl; try done; apply IHd. Qed.

Lemma uintValue_pos (d : Decimal.uint) (acc : positive) :
  uintValue d (Z.pos acc) = Z.pos (Pos.of_uint_acc d acc).
Proof.
  revert acc. induction d; intros acc; simpl; try done;
    (etrans; [|apply IHd]); f_equal; lia.
Qed.

Lemma uintValue_0 (d : Decimal.uint) : uintValue d 0 = Z.of_N (Pos.of_uint d).
Proof.
  induction d; simpl; try done; apply (uintValue_pos d).
Qed.

Lemma digits_to_uint (p : positive) :
  digits (NilEmpty.string_of_uint (Pos.to_uint p)) = Some (Z.pos p).
Proof.
  pose proof (DecimalPos.Unsigned.to_uint_nonnil p) as Hnil.
  pose proof (DecimalPos.Unsigned.of_to p) as Hof.
  unfold digits.
  destruct (NilEmpty.string_of_uint (Pos.to_uint p)) eqn:Hs.
  - destruct (Pos.to_uint p); done.
  - rewrite <- Hs, digitsFrom_string_of_uint, uintValue_0, Hof. done.
Qed.

Lemma string_of_uint_head (d : Decimal.uint) :
  d <> Decimal.Nil ->
  exists c s, NilEmpty.string_of_uint d = String c s /\ c <> "-"%char /\ c <> "+"%char.
Proof. destruct d; intros Hd; try done; simpl; eauto. Qed.

(** [Atoi] reads back what [%d] prints. *)
Lemma Atoi_itoa (n : Z) : min_int <= n <= max_int -> Atoi (itoa n) = Some n.
Proof.
  intros Hn.
  assert (Hr : (min_int <=? n) && (n <=? max_int) = true).
  { apply andb_true_iff. split; apply Z.leb_le; lia. }
  destruct n as [|p|p]; [by vm_compute| |].
  - unfold itoa, Atoi. simpl Z.to_int. simpl NilZero.string_of_int.
    unfold NilZero.string_of_uint.
    pose proof (DecimalPos.Unsigned.to_uint_nonnil p) as Hnil.
    destruct (string_of_uint_head _ Hnil) as (c & s & Hs & Hm & Hp).
    pose proof (digits_to_uint p) as Hd. rewrite Hs in Hd.
    destruct (Pos.to_uint p) eqn:Hu; [done|..]; rewrite Hs;
      (destruct c as [[] [] [] [] [] [] [] []]; try done; rewrite Hd; by rewrite Hr).
  - unfold itoa, Atoi. simpl Z.to_int. simpl NilZero.string_of_int.
    unfold NilZero.string_of_uint.
    pose proof (DecimalPos.Unsigned.to_uint_nonnil p) as Hnil.
    pose proof (digits_to_uint p) as Hd.
    destruct (Pos.to_uint p) eqn:Hu; [done|..]; rewrite Hd;
      change ((fun n : Z => - n) <$> Some (Z.pos p)) with (Some (Z.neg p));
      cbv beta iota; by rewrite Hr.
Qed.

Lemma CutPrefix_app (p s : string) : (CutPrefix (p +:+ s) p).1 = s.
Proof. unfold CutPrefix. by rewrite HasPrefix_app, dropPrefix_app. Qed.

Lemma portId_Ethernet (s : string) :
  portIdForName ("Ethernet" +:+ s) =
  match Atoi s with Some idx => Ok (wrap (idx + 1)) | None => Err (ErrAtoi ("Ethernet" +:+ s)) end.
Proof.
  unfold portIdForName.
  replace (HasPrefix ("Ethernet" +:+ s) "Management0") with false by reflexivity.
  by rewrite HasPrefix_app, CutPrefix_app.
Qed.

Lemma portId_port (s : string) :
  portIdForName ("port" +:+ s) =
  match Atoi s with Some idx => Ok idx | None => Err (ErrAtoi ("port" +:+ s)) end.
Proof.
  unfold portIdForName.
  replace (HasPrefix ("port" +:+ s) "Management0") with false by reflexivity.
  replace (HasPrefix ("port" +:+ s) "Ethernet") with false by reflexivity.
  by rewrite HasPrefix_app, CutPrefix_app.
Qed.

Lemma portId_enp2s (s : string) :
  portIdForName ("enp2s" +:+ s) =
  match Atoi s with Some idx => Ok idx | None => Err (ErrAtoi ("enp2s" +:+ s)) end.
Proof.
  unfold portIdForName.
  replace (HasPrefix ("enp2s" +:+ s) "Management0") with false by reflexivity.
  replace (HasPrefix ("enp2s" +:+ s) "Ethernet") with false by reflexivity.
  replace (HasPrefix ("enp2s" +:+ s) "port") with false by reflexivity.
  by rewrite HasPrefix_app, CutPrefix_app.
Qed.

Lemma portId_other (name : string) :
  HasPrefix name "Management0" = false ->
  (forall s, name = "Ethernet" +:+ s \/ name = "port" +:+ s \/ name = "enp2s" +:+ s ->
             Atoi s = None) ->
  exists e, portIdForName name = Err e.
Proof.
  intros Hm Hother. unfold portIdForName, CutPrefix. rewrite Hm.
  destruct (HasPrefix name "Ethernet") eqn:He.
  { cbn [fst]. rewrite (Hother (dropPrefix name "Ethernet")); [eauto|].
    left. by apply HasPrefix_split. }
  destruct (HasPrefix name "port") eqn:Hp.
  { cbn [fst]. rewrite (Hother (dropPrefix name "port")); [eauto|].
    right; left. by apply HasPrefix_split. }
  destruct (HasPrefix name "enp2s") eqn:Hn; [|eauto].
  cbn [fst]. rewrite (Hother (dropPrefix name "enp2s")); [eauto|].
  right; right. by apply HasPrefix_split.
Qed.

(** C5. [portIdForName] maps every name that begins with "Management0" to
    index 0; "Ethernet<N>" to N+1, "port<N>" to N and "enp2s<N>" to N, where
    <N> is any text [strconv.Atoi] reads as the [int] N (in particular the
    text [%d] prints for N), N+1 being computed in [int] (so N is below the
    largest [int] for it to be N+1 exactly); and it returns an error for
    every other name. "Management0/0" gives 0, "Ethernet4" gives 5, "port3"
    gives 3, "enp2s7" gives 7 and "weird0" is an error. *)
Theorem C5_portIdForName_rule :
  (forall name, HasPrefix name "Management0" = true -> portIdForName name = Ok 0) /\
  (forall s n, Atoi s = Some n ->
     portIdForName ("Ethernet" +:+ s) = Ok (wrap (n + 1)) /\
     (n < max_int -> portIdForName ("Ethernet" +:+ s) = Ok (n + 1)) /\
     portIdForName ("port" +:+ s) = Ok n /\
     portIdForName ("enp2s" +:+ s) = Ok n) /\
  (forall n, min_int <= n < max_int ->
     portIdForName ("Ethernet" +:+ itoa n) = Ok (n + 1) /\
     portIdForName ("port" +:+ itoa n) = Ok n /\
     portIdForName ("enp2s" +:+ itoa n) = Ok n) /\
  (forall name, HasPrefix name "Management0" = false ->
     (forall s, name = "Ethernet" +:+ s \/ name = "port" +:+ s \/ name = "enp2s" +:+ s ->
                Atoi s = None) ->
     exists e, portIdForName name = Err e) /\
  portIdForName "Management0/0" = Ok 0 /\
  portIdForName "Ethernet4" = Ok 5 /\
  portIdForName "port3" = Ok 3 /\
  portIdForName "enp2s7" = Ok 7 /\
  portIdForName "weird0" = Err (ErrUnsupportedPortName "weird0").
Proof.
  assert (Hall : forall s n, Atoi s = Some n ->
     portIdForName ("Ethernet" +:+ s) = Ok (wrap (n + 1)) /\
     (n < max_int -> portIdForName ("Ethernet" +:+ s) = Ok (n + 1)) /\
     portIdForName ("port" +:+ s) = Ok n /\
     portIdForName ("enp2s" +:+ s) = Ok n).
  { intros s n Ha. pose proof (Atoi_range s n Ha) as Hr.
    rewrite portId_Ethernet, portId_port, portId_enp2s, Ha.
    repeat split; try done.
    intros Hlt. rewrite wrap_small; [done | unfold min_int, max_int in *; lia]. }
  split; [|split; [exact Hall|split; [|split; [exact portId_other|by repeat split]]]].
  - intros name Hm. unfold portIdForName. by rewrite Hm.
  - intros n Hn.
    assert (Ha : Atoi (itoa n) = Some n) by (apply Atoi_itoa; lia).
    destruct (Hall _ _ Ha) as (_ & He & Hp & Hs).
    split; [apply He; lia | done].
Qed.

Lemma C5_portIdForName_rule_witness :
  portIdForName "Management0" = Ok 0 /\
  portIdForName ("Ethernet" +:+ "+12") = Ok 13 /\
  portIdForName ("port" +:+ itoa 7) = Ok 7 /\
  (exists e, portIdForName "Ether4" = Err e).
Proof.
  destruct C5_portIdForName_rule as (Hm & Ha & Hi & Ho & _).
  split; [by apply Hm|].
  split; [by apply (Ha "+12" 12)|].
  split; [apply (Hi 7); by vm_compute|].
  apply Ho; [done|].
  intros s [Hs|[Hs|Hs]]; discriminate Hs.
Defined.

End PortNames.

(** ** The checks of Phase D *)

Module Checks.
Import Connectivity.

(** C1, as stated, fails on an empty output: with no connectivity expected
    and a failed ping that printed nothing, the check passes although the
    output does not contain the packet-loss message. *)
Lemma C1_empty_output_passes :
  GoStr.Contains "" lossMessage = false /\
  pingClassify false "" true = Ok PingNotExpectedFailed /\
  pingFailed PingNotExpectedFailed = false.
Proof. by vm_compute. Qed.

(** C1, amended. The ping verdict follows the table: expected and success,
    pass; expected and failure, fail; not expected and success, fail; not
    expected and failure with the packet-loss message in the output, pass;
    not expected and failure with a non-empty output that lacks the message,
    fail; not expected and failure with an empty output, pass. The check
    never ends in the "unexpected result" error. *)
Theorem C1_ping_table (out : string) :
  pingClassify true out false = Ok PingExpectedSucceeded /\
  pingClassify true out true = Ok PingExpectedFailed /\
  pingClassify false out false = Ok PingNotExpectedNotFailed /\
  (GoStr.Contains out lossMessage = true ->
     pingClassify false out true = Ok PingNotExpectedFailed) /\
  (out <> "" -> GoStr.Contains out lossMessage = false ->
     pingClassify false out true = Ok PingFailedWithoutLossMessage) /\
  pingClassify false "" true = Ok PingNotExpectedFailed /\
  pingFailed PingExpectedSucceeded = false /\
  pingFailed PingExpectedFailed = true /\
  pingFailed PingNotExpectedNotFailed = true /\
  pingFailed PingNotExpectedFailed = false /\
  pingFailed PingFailedWithoutLossMessage = true.
Proof.
  repeat split; try done.
  - intros Hc. unfold pingClassify. simpl. rewrite Hc.
    by rewrite andb_false_r.
  - intros Hne Hc. unfold pingClassify. simpl. rewrite Hc.
    by destruct out.
Qed.

Lemma C1_ping_table_witness :
  pingClassify false "1 packets transmitted, 0 received, 100% packet loss" true
    = Ok PingNotExpectedFailed /\
  pingClassify false "connect: Network is unreachable" true
    = Ok PingFailedWithoutLossMessage.
Proof.
  split.
  - destruct (C1_ping_table "1 packets transmitted, 0 received, 100% packet loss")
      as (_ & _ & _ & Hloss & _).
    apply Hloss. by vm_compute.
  - destruct (C1_ping_table "connect: Network is unreachable")
      as (_ & _ & _ & _ & Hother & _).
    apply Hother; [discriminate | by vm_compute].
Defined.

Lemma pingClassify_total (peerConnected : bool) (out : string) (err : bool) :
  exists o, pingClassify peerConnected out err = Ok o.
Proof.
  unfold pingClassify. destruct peerConnected, err; simpl; eauto.
  destruct (_ && _); eauto.
Qed.

(** A round of the pair loop never ends in an error. *)
Lemma pairCheck_total `{Topology.Platform} `{World} (c : ServerConnectivityTestConfig)
    (server peer : Server) (t : tally) :
  exists t', pairCheck c server peer t = Ok t'.
Proof.
  unfold pairCheck.
  destruct (0 <? VPCPing c); [|simpl; repeat case_match; eauto].
  destruct (ssh server (pingCommand _ _) _) as [out err].
  destruct (pingClassify_total (containsStr (VPCPeers server) (Name peer)) out err) as [o ->].
  simpl. repeat case_match; eauto.
Qed.

Lemma digits2_pos_bounds (m : positive) :
  2 ^ (Z.pos (digits2_pos m) - 1) <= Z.pos m < 2 ^ Z.pos (digits2_pos m).
Proof.
  induction m as [m IH|m IH|]; simpl digits2_pos; [| |by vm_compute].
  - rewrite Pos2Z.inj_succ.
    replace (Z.succ (Z.pos (digits2_pos m)) - 1) with (Z.succ (Z.pos (digits2_pos m) - 1)) by lia.
    rewrite !Z.pow_succ_r by lia. lia.
  - rewrite Pos2Z.inj_succ.
    replace (Z.succ (Z.pos (digits2_pos m)) - 1) with (Z.succ (Z.pos (digits2_pos m) - 1)) by lia.
    rewrite !Z.pow_succ_r by lia. lia.
Qed.

Lemma speedFloor_value : isFloat64 speedFloor = true /\ valueIs speedFloor 8500000000.
Proof. by vm_compute. Qed.

Lemma finite_vs_floor (m : positive) (e : Z) :
  bounded 53 1024 m e = true ->
  finiteCompare false m e 8500000000 =
  match e ?= -20 with
  | Eq => Pos.compare_cont Eq m 8912896000000000
  | c => c
  end.
Proof.
  unfold bounded, canonical_mantissa, fexp, emin, finiteCompare.
  intros [Hc He]%andb_true_iff. apply Z.eqb_eq in Hc. apply Z.leb_le in He.
  pose proof (digits2_pos_bounds m) as Hd.
  assert (Hd0 : 0 < Z.pos (digits2_pos m)) by lia.
  remember (Z.pos (digits2_pos m)) as d eqn:Heqd. clear Heqd.
  cbn [cond_Zopp].
  destruct (Z.compare_spec e (-20)) as [->|Hlt|Hgt].
  - change (2 ^ Z.max (-20) 0) with 1. change (2 ^ Z.max (- -20) 0) with 1048576.
    change (8500000000 * 1048576) with 8912896000000000.
    by rewrite Z.mul_1_r.
  - apply Z.compare_lt_iff.
    rewrite (Z.max_r e 0), (Z.max_l (- e) 0) by lia. rewrite Z.pow_0_r.
    assert (d <= 53) by lia.
    assert (2 ^ d <= 2 ^ 53) by (apply Z.pow_le_mono_r; lia).
    assert (2 ^ 21 <= 2 ^ (- e)) by (apply Z.pow_le_mono_r; lia).
    change (2 ^ 53) with 9007199254740992 in *.
    change (2 ^ 21) with 2097152 in *. nia.
  - apply Z.compare_gt_iff.
    assert (d = 53) as Hd53 by lia.
    rewrite Hd53 in Hd. change (2 ^ (53 - 1)) with 4503599627370496 in Hd.
    destruct (Z_le_gt_dec 0 e) as [Hpos|Hneg].
    + rewrite (Z.max_l e 0), (Z.max_r (- e) 0) by lia. rewrite Z.pow_0_r.
      assert (1 <= 2 ^ e) by (change 1 with (2 ^ 0); apply Z.pow_le_mono_r; lia).
      nia.
    + rewrite (Z.max_r e 0), (Z.max_l (- e) 0) by lia. rewrite Z.pow_0_r.
      assert (2 ^ (- e) <= 2 ^ 19) by (apply Z.pow_le_mono_r; lia).
      assert (0 < 2 ^ (- e)) by (apply Z.pow_pos_nonneg; lia).
      change (2 ^ 19) with 524288 in *. nia.
Qed.

(** On every float64, the test [BitsPerSecond < 8500000000] is true exactly
    when the number is below 8,500,000,000. *)
Lemma SFltb_floor (x : spec_float) :
  isFloat64 x = true ->
  SFltb x speedFloor = true <-> valueBelow x 8500000000.
Proof.
  intros Hv. destruct x as [s|s| |s m e]; simpl in *.
  - destruct s; done.
  - destruct s; done.
  - done.
  - destruct s.
    + split; [intros _|done]. unfold finiteCompare. apply Z.compare_lt_iff.
      cbn [cond_Zopp].
      assert (0 < 2 ^ Z.max e 0) by (apply Z.pow_pos_nonneg; lia).
      assert (0 < 2 ^ Z.max (- e) 0) by (apply Z.pow_pos_nonneg; lia).
      nia.
    + rewrite (finite_vs_floor m e Hv). unfold SFltb, SFcompare, speedFloor.
      destruct (e ?= -20); [|done|done].
      by destruct (Pos.compare_cont Eq m 8912896000000000).
Qed.

(** C8. For every client report that parses, with [bps] its sent
    bits-per-second: if [bps] is below 8,500,000,000 the client probe sets
    the pair's [passed] flag to false; if it is not below, the probe leaves
    the flag as it was; and a [bps] of exactly 8,500,000,000 is not below,
    so the flag is kept. *)
Theorem C8_speed_floor `{World} (passed : bool) (out : string) (report : Iperf3Report) :
  parseIperf3Report out = Some report ->
  isFloat64 (BitsPerSecond (SumSent (End_ report))) = true ->
  (valueBelow (BitsPerSecond (SumSent (End_ report))) 8500000000 ->
     iperfClient passed (out, false) = false) /\
  (~ valueBelow (BitsPerSecond (SumSent (End_ report))) 8500000000 ->
     iperfClient passed (out, false) = passed) /\
  (valueIs (BitsPerSecond (SumSent (End_ report))) 8500000000 ->
     iperfClient passed (out, false) = passed).
Proof.
  intros Hparse Hv.
  pose proof (SFltb_floor _ Hv) as Hlt.
  unfold iperfClient, speedTooLow. cbn [fst snd]. rewrite Hparse.
  assert (Hnot : ~ valueBelow (BitsPerSecond (SumSent (End_ report))) 8500000000 ->
                 SFltb (BitsPerSecond (SumSent (End_ report))) speedFloor = false).
  { intros Hn. destruct (SFltb _ speedFloor); [|done]. exfalso. apply Hn. by apply Hlt. }
  split; [|split].
  - intros Hb. apply Hlt in Hb. by rewrite Hb.
  - intros Hn. by rewrite (Hnot Hn).
  - intros Hi. rewrite Hnot; [done|].
    destruct (BitsPerSecond (SumSent (End_ report))); simpl in *; try done.
    congruence.
Qed.

Lemma C8_speed_floor_witness :
  @iperfClient exampleWorld true ("slow", false) = false /\
  @iperfClient exampleWorld true ("floor", false) = true.
Proof.
  split.
  - apply (@C8_speed_floor exampleWorld true "slow"
             (exampleReport (S754_finite false 8912896000000000 (-21))));
      by vm_compute.
  - apply (@C8_speed_floor exampleWorld true "floor"
             (exampleReport (S754_finite false 8912896000000000 (-20))));
      by vm_compute.
Defined.

End Checks.

(** ** The topology compiler *)

Module TopologyFacts.
Import wiringapi Topology.

(** *** Gap filling *)

Lemma maxDevID_nonneg (ifs : gmap Z VMInterface) : 0 <= maxDevID ifs.
Proof.
  unfold maxDevID. induction (map_to_list ifs) as [|kv l IH]; simpl; [done|].
  case_match; lia.
Qed.

Lemma maxDevID_upper (ifs : gmap Z VMInterface) (k : Z) :
  is_Some (ifs !! k) -> k <= maxDevID ifs.
Proof.
  intros [v Hk]. apply elem_of_map_to_list in Hk. unfold maxDevID.
  induction (map_to_list ifs) as [|kv l IH]; simpl.
  - by apply elem_of_nil in Hk.
  - apply elem_of_cons in Hk as [<-|Hk].
    + simpl. case_match; lia.
    + specialize (IH Hk). case_match; lia.
Qed.

Lemma maxDevID_attained (ifs : gmap Z VMInterface) :
  maxDevID ifs = 0 \/ is_Some (ifs !! maxDevID ifs).
Proof.
  unfold maxDevID.
  assert (Hin : forall kv, kv ∈ map_to_list ifs -> is_Some (ifs !! kv.1)).
  { intros [k v] Hkv. apply elem_of_map_to_list in Hkv. eauto. }
  induction (map_to_list ifs) as [|kv l IH]; simpl; [by left|].
  case_match.
  - right. apply Hin. by left.
  - apply IH. intros kv' Hkv'. apply Hin. by right.
Qed.

Lemma fill_lookup (used : gset Z) (l : list Z) (ifs : gmap Z VMInterface) (i : Z) :
  foldl (fillStep used) ifs l !! i =
  if bool_decide (i ∈ l /\ i ∉ used) then Some emptyInterface else ifs !! i.
Proof.
  revert ifs. induction l as [|x l IH]; intros ifs; cbn [foldl].
  - rewrite bool_decide_eq_false_2; [done|]. intros [Hi _]. by apply elem_of_nil in Hi.
  - rewrite IH. unfold fillStep.
    destruct (bool_decide (i ∈ l /\ i ∉ used)) eqn:Hl.
    + apply bool_decide_eq_true in Hl as [Hil Hu].
      rewrite bool_decide_eq_true_2; [done|]. split; [by right|done].
    + apply bool_decide_eq_false in Hl.
      destruct (bool_decide (x ∈ used)) eqn:Hx.
      * apply bool_decide_eq_true in Hx.
        rewrite bool_decide_eq_false_2; [done|].
        intros [[->|Hil]%elem_of_cons Hu]; [done|]. apply Hl. done.
      * apply bool_decide_eq_false in Hx.
        destruct (decide (i = x)) as [->|Hne].
        -- rewrite lookup_insert_eq.
           rewrite bool_decide_eq_true_2; [done|]. split; [by left|done].
        -- rewrite lookup_insert_ne by done.
           rewrite bool_decide_eq_false_2; [done|].
           intros [[->|Hil]%elem_of_cons Hu]; [done|]. apply Hl. done.
Qed.

Lemma fillGaps_lookup (ifs : gmap Z VMInterface) (i : Z) :
  fillGaps ifs !! i =
  if bool_decide (0 <= i <= maxDevID ifs /\ ifs !! i = None)
  then Some emptyInterface else ifs !! i.
Proof.
  unfold fillGaps, usedDevs. rewrite fill_lookup.
  apply (f_equal (fun b : bool => if b then Some emptyInterface else ifs !! i)).
  apply bool_decide_ext. rewrite elem_of_seqZ, not_elem_of_dom.
  split; intros [Hr Hn]; (split; [lia|done]).
Qed.

Lemma fillGaps_keeps (ifs : gmap Z VMInterface) (i : Z) (v : VMInterface) :
  ifs !! i = Some v -> fillGaps ifs !! i = Some v.
Proof.
  intros Hi. rewrite fillGaps_lookup, bool_decide_eq_false_2; [done|].
  intros [_ Hn]. congruence.
Qed.

Lemma fillGaps_maxDevID (ifs : gmap Z VMInterface) :
  maxDevID (fillGaps ifs) = maxDevID ifs.
Proof.
  apply Z.le_antisymm.
  - destruct (maxDevID_attained (fillGaps ifs)) as [->|[v Hv]].
    + apply maxDevID_nonneg.
    + rewrite fillGaps_lookup in Hv. case_bool_decide as Hc; [lia|].
      apply maxDevID_upper. eauto.
  - destruct (maxDevID_attained ifs) as [->|[v Hv]].
    + apply maxDevID_nonneg.
    + apply maxDevID_upper. rewrite (fillGaps_keeps _ _ _ Hv). eauto.
Qed.

Lemma fillGaps_dense (ifs : gmap Z VMInterface) : dense (fillGaps ifs).
Proof.
  intros i Hi. rewrite fillGaps_maxDevID in Hi. rewrite fillGaps_lookup.
  case_bool_decide as Hc; [eauto|].
  destruct (ifs !! i) eqn:Hl; [eauto|]. exfalso. apply Hc. done.
Qed.

Lemma fillGaps_of_dense (ifs : gmap Z VMInterface) : dense ifs -> fillGaps ifs = ifs.
Proof.
  intros Hd. apply map_eq. intros i. rewrite fillGaps_lookup.
  rewrite bool_decide_eq_false_2; [done|].
  intros [Hi Hn]. destruct (Hd i Hi) as [v Hv]. congruence.
Qed.

(** *** Numbering the VMs *)

Lemma registerAll_cons (it : string * (Z -> VM)) (items : list (string * (Z -> VM)))
    (st : gmap string VM * Z) :
  registerAll (it :: items) st = (st' ← register st it.1 it.2; registerAll items st').
Proof. reflexivity. Qed.

Lemma register_fresh (st : gmap string VM * Z) (name : string) (mk : Z -> VM) :
  st.1 !! name = None -> register st name mk = Ok (<[name := mk st.2]> st.1, st.2 + 1).
Proof. unfold register. by intros ->. Qed.

Lemma register_taken (st : gmap string VM * Z) (name : string) (mk : Z -> VM) :
  is_Some (st.1 !! name) -> register st name mk = Err (ErrDuplicateName name).
Proof. unfold register. by intros [v ->]. Qed.

Lemma registerAll_app (xs ys : list (string * (Z -> VM))) (st : gmap string VM * Z) :
  registerAll (xs ++ ys) st = (st' ← registerAll xs st; registerAll ys st').
Proof. apply Loops.forM_app. Qed.

Lemma registerAll_count (items : list (string * (Z -> VM))) (st st' : gmap string VM * Z) :
  registerAll items st = Ok st' -> st'.2 = st.2 + Z.of_nat (length items).
Proof.
  revert st. induction items as [|it items IH]; intros st Hrun.
  - cbv in Hrun. simplify_eq. simpl. lia.
  - rewrite registerAll_cons in Hrun.
    destruct (st.1 !! it.1) eqn:Hl.
    + rewrite register_taken in Hrun by eauto. done.
    + rewrite register_fresh in Hrun by done. simpl in Hrun.
      apply IH in Hrun. simpl in Hrun. rewrite length_cons. lia.
Qed.

Lemma registerAll_ok (items : list (string * (Z -> VM))) (vms : gmap string VM) (n : Z) :
  NoDup items.*1 -> (forall x, x ∈ items.*1 -> vms !! x = None) ->
  exists vms', registerAll items (vms, n) = Ok (vms', n + Z.of_nat (length items)) /\
    (forall (i : nat) it, items !! i = Some it -> vms' !! it.1 = Some (it.2 (n + Z.of_nat i))) /\
    (forall name, name ∉ items.*1 -> vms' !! name = vms !! name).
Proof.
  revert vms n.
  induction items as [|it items IH]; intros vms n Hnd Hfresh.
  - exists vms. split; [|done]. cbv [registerAll forM]. simpl. f_equal. f_equal. lia.
  - rewrite fmap_cons in Hnd, Hfresh. apply NoDup_cons in Hnd as [Hnotin Hnd].
    rewrite registerAll_cons, register_fresh by (apply Hfresh; by left). cbn [fst snd].
    destruct (IH (<[it.1 := it.2 n]> vms) (n + 1) Hnd) as (vms' & Hrun & Hin & Hout).
    { intros x Hx. rewrite lookup_insert_ne; [apply Hfresh; by right|].
      intros <-. done. }
    exists vms'. split; [|split].
    + etrans; [exact Hrun|]. rewrite length_cons. f_equal. f_equal. lia.
    + intros [|i] it' Hi; simpl in Hi.
      * simplify_eq. rewrite Hout by done. rewrite lookup_insert_eq.
        f_equal. f_equal. lia.
      * rewrite (Hin i it' Hi). f_equal. f_equal. lia.
    + intros name Hname. rewrite fmap_cons in Hname.
      apply not_elem_of_cons in Hname as [Hne Hname].
      rewrite Hout by done. by rewrite lookup_insert_ne.
Qed.

Lemma registerAll_err (items : list (string * (Z -> VM))) (st : gmap string VM * Z) :
  ~ NoDup items.*1 \/ (exists x, x ∈ items.*1 /\ is_Some (st.1 !! x)) ->
  exists name, registerAll items st = Err (ErrDuplicateName name).
Proof.
  revert st.
  induction items as [|it items IH]; intros st Hbad.
  - destruct Hbad as [Hnd|(x & Hx & _)]; [destruct Hnd; constructor|by apply elem_of_nil in Hx].
  - rewrite registerAll_cons. rewrite fmap_cons in Hbad.
    destruct (st.1 !! it.1) eqn:Hl.
    { rewrite register_taken by eauto. eauto. }
    rewrite register_fresh by done.
    apply IH. cbn [fst].
    destruct (decide (it.1 ∈ items.*1)) as [Hin|Hnotin].
    { right. exists it.1. split; [done|]. rewrite lookup_insert_eq. eauto. }
    destruct Hbad as [Hnd|(x & Hx & Hsome)].
    + left. intros Hnd'. apply Hnd. by constructor.
    + right. exists x. apply elem_of_cons in Hx as [->|Hx].
      * rewrite Hl in Hsome. by destruct Hsome.
      * split; [done|]. rewrite lookup_insert_ne; [done|].
        intros Heq. apply Hnotin. by rewrite Heq.
Qed.

Section Numbering.
Context `{Platform}.

Lemma forM_addControl (c : Config) (servers : list wiringapi.Server) (st : gmap string VM * Z) :
  forM (addControl c) servers st =
  registerAll ((fun n => (n, controlVM c n)) <$>
     (ServerName <$> filter (fun s => ServerSpecType s = ServerTypeControl) servers)) st.
Proof.
  revert st. induction servers as [|sv servers IH]; intros st; [done|].
  rewrite Loops.forM_cons, filter_cons.
  destruct (decide (ServerSpecType sv = ServerTypeControl)) as [Heq|Hne].
  - rewrite !fmap_cons, registerAll_cons. cbn [fst snd].
    replace (addControl c st sv) with (register st (ServerName sv) (controlVM c (ServerName sv))).
    2:{ unfold addControl. by rewrite bool_decide_eq_false_2 by (intros Hn; by apply Hn). }
    destruct (register st (ServerName sv) (controlVM c (ServerName sv))); simpl; [apply IH|done].
  - replace (addControl c st sv) with (Ok st : result (gmap string VM * Z)).
    2:{ unfold addControl. by rewrite bool_decide_eq_true_2. }
    simpl. apply IH.
Qed.

Lemma forM_addServer (c : Config) (servers : list wiringapi.Server) (st : gmap string VM * Z) :
  forM (addServer c) servers st =
  registerAll ((fun n => (n, serverVM c n)) <$>
     (ServerName <$> filter (fun s => ServerSpecType s = ServerTypeDefault) servers)) st.
Proof.
  revert st. induction servers as [|sv servers IH]; intros st; [done|].
  rewrite Loops.forM_cons, filter_cons.
  destruct (decide (ServerSpecType sv = ServerTypeDefault)) as [Heq|Hne].
  - rewrite !fmap_cons, registerAll_cons. cbn [fst snd].
    replace (addServer c st sv) with (register st (ServerName sv) (serverVM c (ServerName sv))).
    2:{ unfold addServer. by rewrite bool_decide_eq_false_2 by (intros Hn; by apply Hn). }
    destruct (register st (ServerName sv) (serverVM c (ServerName sv))); simpl; [apply IH|done].
  - replace (addServer c st sv) with (Ok st : result (gmap string VM * Z)).
    2:{ unfold addServer. by rewrite bool_decide_eq_true_2. }
    simpl. apply IH.
Qed.

Lemma forM_addSwitch (c : Config) (switches : list wiringapi.Switch) (st : gmap string VM * Z) :
  forM (addSwitch c) switches st =
  registerAll ((fun n => (n, switchVM c n)) <$> (SwitchName <$> switches)) st.
Proof.
  revert st. induction switches as [|sw switches IH]; intros st; [done|].
  rewrite Loops.forM_cons, !fmap_cons, registerAll_cons. cbn [fst snd].
  change (addSwitch c st sw) with (register st (SwitchName sw) (switchVM c (SwitchName sw))).
  destruct (register st (SwitchName sw) (switchVM c (SwitchName sw))); simpl; [apply IH|done].
Qed.

Lemma vmItems_names (c : Config) (data : Data) : (vmItems c data).*1 = deviceNames data.
Proof.
  assert (Hfst : forall (mk : string -> Z -> VM) (l : list string),
             ((fun n => (n, mk n)) <$> l).*1 = l).
  { intros mk l. induction l as [|x l IH]; [done|]. rewrite !fmap_cons. by f_equal. }
  unfold vmItems, deviceNames. by rewrite !fmap_app, !Hfst.
Qed.

Lemma vmItems_wf (c : Config) (data : Data) (it : string * (Z -> VM)) :
  it ∈ vmItems c data -> forall k, ID (it.2 k) = k /\ Name (it.2 k) = it.1.
Proof.
  unfold vmItems. rewrite !elem_of_app, !list_elem_of_fmap.
  intros [(n & -> & _)|[(n & -> & _)|(n & -> & _)]] k; done.
Qed.

(** The three passes, with the count of control nodes checked in between. *)
Lemma assignVMs_unfold (c : Config) (data : Data) :
  assignVMs c data =
  (st ← registerAll ((fun n => (n, controlVM c n)) <$> controlNames data) (∅, 0);
   if st.2 =? 0 then Err ErrControlRequired
   else if 1 <? st.2 then Err ErrMultipleControl
   else registerAll (((fun n => (n, serverVM c n)) <$> plainNames data)
                     ++ ((fun n => (n, switchVM c n)) <$> switchNames data)) st).
Proof.
  unfold assignVMs, controlNames, plainNames, switchNames. rewrite forM_addControl.
  destruct (registerAll _ (∅, 0)) as [st|]; simpl; [|done].
  repeat case_match; try done.
  rewrite registerAll_app, forM_addServer.
  destruct (registerAll _ st) as [st'|]; simpl; [apply forM_addSwitch|done].
Qed.

Lemma assignVMs_one_control (c : Config) (data : Data) :
  length (controlNames data) = 1%nat ->
  assignVMs c data = registerAll (vmItems c data) (∅, 0).
Proof.
  intros Hone. rewrite assignVMs_unfold. unfold vmItems.
  rewrite (registerAll_app ((fun n => (n, controlVM c n)) <$> controlNames data)).
  destruct (registerAll _ (∅, 0)) as [st|] eqn:Hrun; simpl; [|done].
  apply registerAll_count in Hrun. rewrite length_fmap, Hone in Hrun. simpl in Hrun.
  rewrite Hrun. done.
Qed.

End Numbering.

(** *** Links *)

Lemma extends_refl (m : gmap string VM) : extends m m.
Proof. split; [|done]. intros name vm Hvm. exists vm. eauto. Qed.

Lemma extends_trans (m1 m2 m3 : gmap string VM) :
  extends m1 m2 -> extends m2 m3 -> extends m1 m3.
Proof.
  intros [H12 N12] [H23 N23]. split; [|by auto].
  intros name vm Hvm.
  destruct (H12 name vm Hvm) as (vm2 & Hvm2 & Hid2 & Hn2 & Hif2).
  destruct (H23 name vm2 Hvm2) as (vm3 & Hvm3 & Hid3 & Hn3 & Hif3).
  exists vm3. repeat split; [done|congruence|congruence|auto].
Qed.

Lemma grows_refl (m : VMManager) : grows m m.
Proof. split; [done|apply extends_refl]. Qed.

Lemma grows_trans (m1 m2 m3 : VMManager) : grows m1 m2 -> grows m2 m3 -> grows m1 m3.
Proof.
  intros [C12 E12] [C23 E23]. split; [congruence|by eapply extends_trans].
Qed.

Lemma extends_insert (m : gmap string VM) (name : string) (vm : VM) (i : Z) (x : VMInterface) :
  m !! name = Some vm -> Interfaces vm !! i = None ->
  extends m (<[name := setInterfaces vm (<[i := x]> (Interfaces vm))]> m).
Proof.
  intros Hvm Hfree. split.
  - intros name' vm' Hvm'. destruct (decide (name = name')) as [<-|Hne].
    + rewrite lookup_insert_eq. eexists. split; [done|]. simplify_eq. simpl.
      repeat split. intros j y Hj. rewrite lookup_insert_ne; [done|]. congruence.
    + rewrite lookup_insert_ne by done. exists vm'. eauto.
  - intros name' Hnone. rewrite lookup_insert_ne; [done|]. congruence.
Qed.

Lemma extends_fmap (f : VM -> VM) (m : gmap string VM) :
  (forall vm, ID (f vm) = ID vm /\ Name (f vm) = Name vm /\
     forall i x, Interfaces vm !! i = Some x -> Interfaces (f vm) !! i = Some x) ->
  extends m (f <$> m).
Proof.
  intros Hf. split.
  - intros name vm Hvm. exists (f vm). rewrite lookup_fmap, Hvm.
    destruct (Hf vm) as (? & ? & ?). done.
  - intros name Hnone. by rewrite lookup_fmap, Hnone.
Qed.

Lemma append_assoc (a b c : string) : (a +:+ b) +:+ c = a +:+ b +:+ c.
Proof.
  induction a as [|x a IH]; [done|].
  change (String x ((a +:+ b) +:+ c) = String x (a +:+ b +:+ c)). by f_equal.
Qed.

Section Links.
Context `{Platform}.

Lemma ifacePortFor_ID (vm vm' : VM) (i : Z) :
  ID vm = ID vm' -> ifacePortFor vm i = ifacePortFor vm' i.
Proof. unfold ifacePortFor. by intros ->. Qed.

Lemma linkNetdev_paired (vm vm' : VM) (i j : Z) :
  linkNetdev vm i (Some (vm', j)) = pairedNetdev (ifacePortFor vm i) (ifacePortFor vm' j).
Proof. unfold linkNetdev, pairedNetdev. by rewrite append_assoc. Qed.

(** What a successful [AddLink] did. *)
Lemma AddLink_inv (mngr mngr' : VMManager) (local dest : option IPort) (conn : string) :
  AddLink mngr local dest conn = Ok mngr' ->
  exists l localVM ip iface,
    local = Some l /\
    vms mngr !! DeviceName l = Some localVM /\
    portIdForName (LocalPortName l) = Ok ip /\
    Interfaces localVM !! ip = None /\
    mngr' = {| cfg := cfg mngr;
               vms := <[DeviceName l := setInterfaces localVM (<[ip := iface]> (Interfaces localVM))]>
                        (vms mngr) |} /\
    Connection iface = conn /\
    (Links (cfg mngr) !! PortName l = None ->
     forall d, dest = Some d ->
       exists destVM idp,
         vms mngr !! DeviceName d = Some destVM /\
         portIdForName (LocalPortName d) = Ok idp /\
         iface = pairedInterface conn (ifacePortFor localVM ip) (ifacePortFor destVM idp)).
Proof.
  unfold AddLink. intros Hrun.
  destruct local as [l|]; [|done].
  destruct (vms mngr !! DeviceName l) as [localVM|] eqn:Hl; [|done].
  destruct (portIdForName (LocalPortName l)) as [ip|] eqn:Hip; simpl in Hrun; [|done].
  destruct dest as [d|].
  - destruct (portIdForName (LocalPortName d)) as [idp|] eqn:Hidp; simpl in Hrun; [|done].
    destruct (vms mngr !! DeviceName d) as [destVM|] eqn:Hd; simpl in Hrun; [|done].
    destruct (Interfaces localVM !! ip) eqn:Hfree; [done|].
    destruct (Links (cfg mngr) !! PortName l) as [lc|] eqn:Hlc; simpl in Hrun.
    + destruct (String.eqb (PCIAddress lc) ""); simpl in Hrun; [done|].
      simplify_eq. eexists l, localVM, ip, _. repeat split; try done.
      intros Hnone. congruence.
    + simplify_eq. eexists l, localVM, ip, _. repeat split; try done.
      intros _ d' [= <-]. exists destVM, idp. repeat split; try done.
  - simpl in Hrun.
    destruct (Interfaces localVM !! ip) eqn:Hfree; [done|].
    destruct (Links (cfg mngr) !! PortName l) as [lc|] eqn:Hlc; simpl in Hrun.
    + destruct (String.eqb (PCIAddress lc) ""); simpl in Hrun; [done|].
      simplify_eq. eexists l, localVM, ip, _. repeat split; try done.
    + simplify_eq. eexists l, localVM, ip, _. repeat split; try done.
Qed.

Lemma AddLink_grows (mngr mngr' : VMManager) (local dest : option IPort) (conn : string) :
  AddLink mngr local dest conn = Ok mngr' -> grows mngr mngr'.
Proof.
  intros (l & localVM & ip & iface & -> & Hl & Hip & Hfree & -> & _)%AddLink_inv.
  split; [done|]. by apply extends_insert.
Qed.

Lemma addLinkBothWays_inv (conn : string) (mngr mngr' : VMManager)
    (link : option IPort * option IPort) :
  addLinkBothWays conn mngr link = Ok mngr' ->
  exists m1, AddLink mngr link.1 link.2 conn = Ok m1 /\ AddLink m1 link.2 link.1 conn = Ok mngr'.
Proof.
  unfold addLinkBothWays. intros Hrun.
  destruct (AddLink mngr link.1 link.2 conn) as [m1|] eqn:H1; [|discriminate Hrun].
  exists m1. split; [done|exact Hrun].
Qed.

Lemma addLinkBothWays_grows (conn : string) (mngr mngr' : VMManager)
    (link : option IPort * option IPort) :
  addLinkBothWays conn mngr link = Ok mngr' -> grows mngr mngr'.
Proof.
  intros (m1 & H1 & H2)%addLinkBothWays_inv.
  eapply grows_trans; by eapply AddLink_grows.
Qed.

Lemma addConnection_grows (mngr mngr' : VMManager) (conn : wiringapi.Connection) :
  addConnection mngr conn = Ok mngr' -> grows mngr mngr'.
Proof.
  unfold addConnection. intros Hrun.
  destruct (linksOf conn) as [links|]; simpl in Hrun; [|done].
  apply (Loops.forM_preserves grows (addLinkBothWays (ConnName conn)) links);
    [apply grows_refl|apply grows_trans| |done].
  intros ???? Hstep. by eapply addLinkBothWays_grows.
Qed.

Lemma fillVM_extends (m : gmap string VM) : extends m (fillVM <$> m).
Proof.
  apply extends_fmap. intros vm. repeat split. intros i x Hi. simpl.
  by apply fillGaps_keeps.
Qed.

Lemma setPaths_extends (basedir : string) (m : gmap string VM) :
  extends m (setPaths basedir <$> m).
Proof. apply extends_fmap. intros vm. by repeat split. Qed.

End Links.

(** *** The whole compilation *)

Section Compile.
Context `{Platform}.

Lemma NewVMManager_inv (c : Config) (data : Data) (basedir size : string) (mngr : VMManager) :
  NewVMManager c data basedir size = Ok mngr ->
  exists st m1,
    assignVMs (applySize c size) data = Ok st /\
    forM addConnection (Connections data)
         {| cfg := applySize c size; vms := setPaths basedir <$> st.1 |} = Ok m1 /\
    mngr = {| cfg := cfg m1; vms := fillVM <$> vms m1 |}.
Proof.
  unfold NewVMManager. intros Hrun.
  destruct (assignVMs (applySize c size) data) as [st|]; simpl in Hrun; [|done].
  destruct (forM addConnection _ _) as [m1|] eqn:Hconn; simpl in Hrun; [|done].
  simplify_eq. eauto.
Qed.

Lemma NewVMManager_assign_err (c : Config) (data : Data) (basedir size : string) (e : error) :
  assignVMs (applySize c size) data = Err e -> NewVMManager c data basedir size = Err e.
Proof. unfold NewVMManager. by intros ->. Qed.

Lemma connections_grow (m0 m1 : VMManager) (conns : list wiringapi.Connection) :
  forM addConnection conns m0 = Ok m1 -> grows m0 m1.
Proof.
  apply (Loops.forM_preserves grows addConnection conns); [apply grows_refl|apply grows_trans|].
  intros ???? Hstep. by eapply addConnection_grows.
Qed.

(** The registry handed back has the VMs the numbering passes made, with
    their IDs. *)
Lemma NewVMManager_extends (c : Config) (data : Data) (basedir size : string)
    (mngr : VMManager) (st : gmap string VM * Z) :
  assignVMs (applySize c size) data = Ok st ->
  NewVMManager c data basedir size = Ok mngr ->
  extends st.1 (vms mngr).
Proof.
  intros Hassign (st' & m1 & Hassign' & Hconn & ->)%NewVMManager_inv.
  rewrite Hassign in Hassign'. simplify_eq. simpl.
  eapply extends_trans; [apply setPaths_extends|].
  eapply extends_trans; [|apply fillVM_extends].
  apply connections_grow in Hconn as [_ Hext]. exact Hext.
Qed.

Lemma assignVMs_numbers (c : Config) (data : Data) :
  length (controlNames data) = 1%nat -> NoDup (deviceNames data) ->
  exists vms,
    assignVMs c data = Ok (vms, Z.of_nat (length (deviceNames data))) /\
    (forall (i : nat) name, deviceNames data !! i = Some name ->
       exists vm, vms !! name = Some vm /\ ID vm = Z.of_nat i /\ Name vm = name) /\
    (forall name, name ∉ deviceNames data -> vms !! name = None).
Proof.
  intros Hone Hnd. rewrite (assignVMs_one_control c data Hone).
  destruct (registerAll_ok (vmItems c data) ∅ 0) as (vms & Hrun & Hin & Hout).
  { by rewrite vmItems_names. }
  { intros. apply lookup_empty. }
  exists vms. split; [|split].
  - rewrite Hrun. rewrite <- (vmItems_names c data), length_fmap. done.
  - intros i name Hi. rewrite <- (vmItems_names c data), list_lookup_fmap in Hi.
    destruct (vmItems c data !! i) as [it|] eqn:Hit; [|done]. simpl in Hi. simplify_eq.
    exists (it.2 (0 + Z.of_nat i)). split; [by apply Hin|].
    apply list_elem_of_lookup_2 in Hit.
    destruct (vmItems_wf c data it Hit (0 + Z.of_nat i)) as [Hid Hname].
    split; [rewrite Hid; lia|done].
  - intros name Hname. rewrite Hout; [apply lookup_empty|]. by rewrite vmItems_names.
Qed.

Lemma assignVMs_no_control (c : Config) (data : Data) :
  controlNames data = [] -> assignVMs c data = Err ErrControlRequired.
Proof. intros Hnone. rewrite assignVMs_unfold, Hnone. reflexivity. Qed.

Lemma assignVMs_many_controls (c : Config) (data : Data) :
  (1 < length (controlNames data))%nat -> exists e, assignVMs c data = Err e.
Proof.
  intros Hmany. rewrite assignVMs_unfold.
  destruct (registerAll _ (∅, 0)) as [st|] eqn:Hrun; simpl; [|eauto].
  apply registerAll_count in Hrun. rewrite length_fmap in Hrun. simpl in Hrun.
  destruct (st.2 =? 0) eqn:H0; [eauto|].
  destruct (1 <? st.2) eqn:H1; [eauto|].
  apply Z.ltb_ge in H1. lia.
Qed.

Lemma assignVMs_duplicate (c : Config) (data : Data) :
  ~ NoDup (deviceNames data) -> exists e, assignVMs c data = Err e.
Proof.
  intros Hdup.
  destruct (controlNames data) as [|x [|y l]] eqn:Hc.
  - rewrite assignVMs_no_control by done. eauto.
  - rewrite assignVMs_one_control by (by rewrite Hc).
    destruct (registerAll_err (vmItems c data) (∅, 0)) as [name ->]; [|eauto].
    left. by rewrite vmItems_names.
  - apply assignVMs_many_controls. rewrite Hc. simpl. lia.
Qed.

(** C4, amended. With exactly one control device and no duplicate name among
    the devices, the numbering passes succeed and give the devices the IDs
    0, 1, ..., deviceCount-1 in the order control device, plain servers,
    switches; the compilation then succeeds exactly when adding the
    connections succeeds, and the registry it returns has these devices with
    these IDs and no other. With no control device, with more than one, or
    with a duplicate name, the compilation fails and returns no registry. *)
Theorem C4_vm_ids (c : Config) (data : Data) (basedir size : string) :
  (length (controlNames data) = 1%nat -> NoDup (deviceNames data) ->
   exists vms0,
     assignVMs (applySize c size) data = Ok (vms0, Z.of_nat (length (deviceNames data))) /\
     (forall (i : nat) name, deviceNames data !! i = Some name ->
        exists vm, vms0 !! name = Some vm /\ ID vm = Z.of_nat i /\ Name vm = name) /\
     isOk (NewVMManager c data basedir size) =
       isOk (forM addConnection (Connections data)
                  {| cfg := applySize c size; vms := setPaths basedir <$> vms0 |}) /\
     forall mngr, NewVMManager c data basedir size = Ok mngr ->
       (forall (i : nat) name, deviceNames data !! i = Some name ->
          exists vm, vms mngr !! name = Some vm /\ ID vm = Z.of_nat i /\ Name vm = name) /\
       (forall name, name ∉ deviceNames data -> vms mngr !! name = None)) /\
  (controlNames data = [] -> NewVMManager c data basedir size = Err ErrControlRequired) /\
  ((1 < length (controlNames data))%nat ->
   exists e, NewVMManager c data basedir size = Err e) /\
  (~ NoDup (deviceNames data) -> exists e, NewVMManager c data basedir size = Err e).
Proof.
  split; [|split; [|split]].
  - intros Hone Hnd.
    destruct (assignVMs_numbers (applySize c size) data Hone Hnd) as (vms0 & Hrun & Hin & Hout).
    exists vms0. split; [done|]. split; [done|]. split.
    + unfold NewVMManager. rewrite Hrun. simpl.
      by destruct (forM addConnection _ _).
    + intros mngr Hok.
      destruct (NewVMManager_extends c data basedir size mngr _ Hrun Hok) as [Hkeep Hnone].
      split.
      * intros i name Hi. destruct (Hin i name Hi) as (vm & Hvm & Hid & Hname).
        destruct (Hkeep name vm Hvm) as (vm' & Hvm' & Hid' & Hname' & _).
        exists vm'. split; [done|]. split; congruence.
      * intros name Hname. apply Hnone. simpl. by apply Hout.
  - intros Hnone. apply NewVMManager_assign_err. by apply assignVMs_no_control.
  - intros Hmany. destruct (assignVMs_many_controls (applySize c size) data Hmany) as [e He].
    exists e. by apply NewVMManager_assign_err.
  - intros Hdup. destruct (assignVMs_duplicate (applySize c size) data Hdup) as [e He].
    exists e. by apply NewVMManager_assign_err.
Qed.

(** C7. After the gap-filling pass every index from 0 to the largest index
    of a VM is present: an index that had an interface keeps it, an index
    that had none holds the empty descriptor, and the largest index is
    unchanged. The registry [NewVMManager] returns has only such dense maps.
    On a map that is already dense the pass changes nothing; in particular
    running it a second time changes nothing. (The largest index is computed
    as the code does, starting from 0, so index 0 is always filled.) *)
Theorem C7_gap_filling (ifs : gmap Z VMInterface) :
  dense (fillGaps ifs) /\
  (forall i x, ifs !! i = Some x -> fillGaps ifs !! i = Some x) /\
  (forall i, ifs !! i = None -> 0 <= i <= maxDevID ifs ->
             fillGaps ifs !! i = Some emptyInterface) /\
  (forall i, ifs !! i = None -> ~ 0 <= i <= maxDevID ifs -> fillGaps ifs !! i = None) /\
  (forall k, is_Some (ifs !! k) -> k <= maxDevID ifs) /\
  (maxDevID ifs = 0 \/ is_Some (ifs !! maxDevID ifs)) /\
  maxDevID (fillGaps ifs) = maxDevID ifs /\
  (dense ifs -> fillGaps ifs = ifs) /\
  fillGaps (fillGaps ifs) = fillGaps ifs /\
  (forall c data basedir size mngr name vm,
     NewVMManager c data basedir size = Ok mngr ->
     vms mngr !! name = Some vm -> dense (Interfaces vm)).
Proof.
  split; [apply fillGaps_dense|].
  split; [apply fillGaps_keeps|].
  split.
  { intros i Hn Hi. rewrite fillGaps_lookup, bool_decide_eq_true_2; done. }
  split.
  { intros i Hn Hi. rewrite fillGaps_lookup, bool_decide_eq_false_2; [done|].
    intros [Hr _]. by apply Hi. }
  split; [apply maxDevID_upper|].
  split; [apply maxDevID_attained|].
  split; [apply fillGaps_maxDevID|].
  split; [apply fillGaps_of_dense|].
  split; [apply fillGaps_of_dense, fillGaps_dense|].
  intros c data basedir size mngr name vm (st & m1 & _ & _ & ->)%NewVMManager_inv Hvm.
  simpl in Hvm. rewrite lookup_fmap in Hvm.
  destruct (vms m1 !! name) as [vm1|]; [|done]. simpl in Hvm. simplify_eq.
  apply fillGaps_dense.
Qed.

(** Adding a NAT connection always ends in an error. *)
Lemma addConnection_nat_fails (mngr : VMManager) (conn : wiringapi.Connection) :
  natOnly (Spec conn) -> exists e, addConnection mngr conn = Err e.
Proof.
  intros (Hu & Hb & Hm & Hmc & Hd & [n Hn]).
  unfold addConnection, linksOf. rewrite Hu, Hb, Hm, Hmc, Hd, Hn. simpl.
  unfold addLinkBothWays. cbn [fst snd].
  destruct (AddLink mngr (Some (NATLinkSwitch n)) None (ConnName conn)); simpl; eauto.
Qed.

(** C2 fails on the code. A wiring input with a NAT connection never
    compiles: once the switch-side interface is added, [AddLink] is called
    with the absent remote end as its local port and returns the error
    "local port can't be nil", which [NewVMManager] returns. *)
Theorem C2_nat_connection_fails (c : Config) (data : Data) (basedir size : string)
    (conn : wiringapi.Connection) :
  conn ∈ Connections data -> natOnly (Spec conn) ->
  exists e, NewVMManager c data basedir size = Err e.
Proof.
  intros Hin Hnat. unfold NewVMManager.
  destruct (assignVMs (applySize c size) data) as [st|]; simpl; [|eauto].
  destruct (Loops.forM_fails addConnection (Connections data) conn
              {| cfg := applySize c size; vms := setPaths basedir <$> st.1 |} Hin) as [e ->].
  - intros s. by apply addConnection_nat_fails.
  - simpl. eauto.
Qed.

Lemma linked_extends (m m' : gmap string VM) (conn : string) (a b : IPort) :
  extends m m' -> linked m conn a b -> linked m' conn a b.
Proof.
  intros [Hkeep _] (vmA & vmB & ia & ib & HA & HB & Hia & Hib & HifA & HifB).
  destruct (Hkeep _ _ HA) as (vmA' & HA' & HidA & _ & HkeepA).
  destruct (Hkeep _ _ HB) as (vmB' & HB' & HidB & _ & HkeepB).
  exists vmA', vmB', ia, ib. repeat split; try done.
  - rewrite (ifacePortFor_ID vmA' vmA), (ifacePortFor_ID vmB' vmB) by done. by apply HkeepA.
  - rewrite (ifacePortFor_ID vmA' vmA), (ifacePortFor_ID vmB' vmB) by done. by apply HkeepB.
Qed.

Lemma addLinkBothWays_linked (conn : string) (m m' : VMManager) (a b : IPort) :
  addLinkBothWays conn m (Some a, Some b) = Ok m' ->
  Links (cfg m) !! PortName a = None -> Links (cfg m) !! PortName b = None ->
  linked (vms m') conn a b.
Proof.
  intros (m1 & H1 & Hrun)%addLinkBothWays_inv HlA HlB. cbn [fst snd] in H1, Hrun.
  pose proof (AddLink_grows _ _ _ _ _ H1) as [Hcfg1 [Hkeep1 _]].
  pose proof (AddLink_grows _ _ _ _ _ Hrun) as [_ [Hkeep2 _]].
  apply AddLink_inv in H1
    as (a' & vmA & ia & ifA & Ha' & HA & Hia & HfreeA & Hm1 & _ & HpairA).
  injection Ha' as <-.
  destruct (HpairA HlA b eq_refl) as (vmB & ib & HB & Hib & HifA). clear HpairA.
  apply AddLink_inv in Hrun
    as (b' & vmB1 & ib1 & ifB & Hb' & HB1 & Hib1 & HfreeB & Hm' & _ & HpairB).
  injection Hb' as <-.
  assert (Hcfg : Links (cfg m1) !! PortName b = None) by (by rewrite Hcfg1).
  destruct (HpairB Hcfg a eq_refl) as (vmA1 & ia1 & HA1 & Hia1 & HifB). clear HpairB.
  assert (ib1 = ib) as -> by congruence.
  assert (ia1 = ia) as -> by congruence.
  (* the two VMs as they stood at the second call, and as they stand after it *)
  destruct (Hkeep1 _ _ HB) as (vmB1' & HB1' & HidB & _).
  assert (vmB1' = vmB1) as -> by congruence.
  destruct (Hkeep1 _ _ HA) as (vmA1' & HA1' & HidA & _).
  assert (vmA1' = vmA1) as -> by congruence.
  destruct (Hkeep2 _ _ HA1) as (vmA2 & HA2 & HidA2 & _ & HkA2).
  destruct (Hkeep2 _ _ HB1) as (vmB2 & HB2 & HidB2 & _).
  exists vmA2, vmB2, ia, ib. split; [done|]. split; [done|]. split; [done|]. split; [done|].
  split.
  - rewrite (ifacePortFor_ID vmA2 vmA), (ifacePortFor_ID vmB2 vmB) by congruence.
    apply HkA2. rewrite Hm1 in HA1. simpl in HA1.
    rewrite lookup_insert_eq in HA1. injection HA1 as <-. simpl.
    by rewrite lookup_insert_eq, HifA.
  - rewrite (ifacePortFor_ID vmB2 vmB1), (ifacePortFor_ID vmA2 vmA1) by congruence.
    rewrite Hm' in HB2. simpl in HB2.
    rewrite lookup_insert_eq in HB2. injection HB2 as <-. simpl.
    by rewrite lookup_insert_eq, HifB.
Qed.

(** C6. In a registry [NewVMManager] returns, for every link between two
    ports of every connection, neither port having a passthrough entry in the
    configuration: both devices are in the registry, each has at the index of
    its port an interface that names the connection, and the netdev of each
    is [udp=] its own UDP port, [localaddr=] the UDP port of the other end,
    a UDP port being [IF_PORT_BASE + vmID * IF_PORT_VM_ID_MULT + ifaceIndex *
    IF_PORT_PORT_ID_MULT] in [int] arithmetic. *)
Theorem C6_link_pairing (c : Config) (data : Data) (basedir size : string)
    (mngr : VMManager) (conn : wiringapi.Connection)
    (links : list (option IPort * option IPort)) (a b : IPort) :
  NewVMManager c data basedir size = Ok mngr ->
  conn ∈ Connections data -> linksOf conn = Ok links -> (Some a, Some b) ∈ links ->
  Links c !! PortName a = None -> Links c !! PortName b = None ->
  linked (vms mngr) (ConnName conn) a b /\
  forall vm i, ifacePortFor vm i
    = GoStr.wrap (IF_PORT_BASE + ID vm * IF_PORT_VM_ID_MULT + i * IF_PORT_PORT_ID_MULT).
Proof.
  intros (st & m1 & _ & Hconns & ->)%NewVMManager_inv Hconn Hlinks Hlink HlA HlB.
  split; [|done]. simpl.
  apply (linked_extends (vms m1)); [apply fillVM_extends|].
  assert (Hstep1 : forall s x s', x ∈ Connections data -> addConnection s x = Ok s' -> grows s s').
  { intros ???? Hs. by eapply addConnection_grows. }
  destruct (Loops.forM_round grows addConnection _ conn _ _
              grows_refl grows_trans Hstep1 Hconn Hconns) as (s1 & s2 & Hg1 & Hstep & Hg2).
  apply (linked_extends (vms s2)); [apply Hg2|].
  unfold addConnection in Hstep. rewrite Hlinks in Hstep.
  change (forM (addLinkBothWays (ConnName conn)) links s1 = Ok s2) in Hstep.
  assert (Hstep2 : forall s x s', x ∈ links -> addLinkBothWays (ConnName conn) s x = Ok s' ->
                                  grows s s').
  { intros ???? Hs. by eapply addLinkBothWays_grows. }
  destruct (Loops.forM_round grows (addLinkBothWays (ConnName conn)) _ (Some a, Some b) _ _
              grows_refl grows_trans Hstep2 Hlink Hstep) as (t1 & t2 & Hh1 & Hboth & Hh2).
  apply (linked_extends (vms t2)); [apply Hh2|].
  assert (Hcfg : cfg t1 = applySize c size).
  { destruct Hh1 as [-> _]. by destruct Hg1 as [-> _]. }
  apply (addLinkBothWays_linked _ t1); [done|by rewrite Hcfg..].
Qed.

End Compile.

(** C4, as stated, fails on a wiring input with one control node and no
    duplicate name whose connection names an undeclared device: the
    compilation does not succeed. *)
Lemma C4_compile_can_fail :
  length (controlNames danglingData) = 1%nat /\
  NoDup (deviceNames danglingData) /\
  @NewVMManager examplePlatform exampleConfig danglingData "/vlab" "default"
    = Err (ErrDeviceNotExist "server-2").
Proof.
  split; [done|]. split; [|by vm_compute].
  apply (bool_decide_unpack _). by vm_compute.
Qed.


Lemma NoDup_small : NoDup (deviceNames smallData).
Proof. apply (bool_decide_unpack _). by vm_compute. Defined.

Lemma C4_vm_ids_witness :
  (exists vms0,
     @assignVMs examplePlatform (@applySize examplePlatform exampleConfig "default") smallData
       = Ok (vms0, 3)) /\
  @NewVMManager examplePlatform exampleConfig noControlData "/vlab" "default"
    = Err ErrControlRequired /\
  (exists e, @NewVMManager examplePlatform exampleConfig twoControlData "/vlab" "default" = Err e) /\
  (exists e, @NewVMManager examplePlatform exampleConfig sameNameData "/vlab" "default" = Err e).
Proof.
  split; [|split; [|split]].
  - destruct (@C4_vm_ids examplePlatform exampleConfig smallData "/vlab" "default")
      as (Hok & _).
    destruct (Hok eq_refl NoDup_small) as (vms0 & Hrun & _). exists vms0. exact Hrun.
  - destruct (@C4_vm_ids examplePlatform exampleConfig noControlData "/vlab" "default")
      as (_ & Hnone & _).
    by apply Hnone.
  - destruct (@C4_vm_ids examplePlatform exampleConfig twoControlData "/vlab" "default")
      as (_ & _ & Hmany & _).
    apply Hmany. simpl. lia.
  - destruct (@C4_vm_ids examplePlatform exampleConfig sameNameData "/vlab" "default")
      as (_ & _ & _ & Hdup).
    apply Hdup.
    intros Hnd. apply NoDup_cons in Hnd as [_ Hnd]. apply NoDup_cons in Hnd as [Hnotin _].
    apply Hnotin. by left.
Defined.

(** The run of C2 on a concrete input: the error is the nil local port. *)
Example C2_nat_example :
  @NewVMManager examplePlatform exampleConfig natData "/vlab" "default" = Err ErrLocalPortNil.
Proof. by vm_compute. Qed.

Lemma C2_nat_connection_fails_witness :
  exists e, @NewVMManager examplePlatform exampleConfig natData "/vlab" "default" = Err e.
Proof.
  apply (@C2_nat_connection_fails examplePlatform exampleConfig natData "/vlab" "default"
           {| ConnName := "switch-1--nat"; Spec := natSpec (port "switch-1" "Ethernet0") |}).
  - by left.
  - unfold natOnly. simpl. repeat split; eauto.
Defined.

(** The interfaces of a concrete link: server-1 is VM 1 and its port2 is
    interface 2, switch-1 is VM 2 and its Ethernet3 is interface 4. *)
Example C6_example :
  match @NewVMManager examplePlatform exampleConfig smallData "/vlab" "default" with
  | Ok mngr =>
      (fun vm => (ID vm, Interfaces vm !! 2)) <$> vms mngr !! "server-1"
        = Some (1, Some {| Connection := "server-1--unbundled--switch-1";
                           Netdev := "socket,udp=127.0.0.1:30102,localaddr=127.0.0.1:30204";
                           Passthrough := "" |}) /\
      (fun vm => (ID vm, Interfaces vm !! 4, Interfaces vm !! 0)) <$> vms mngr !! "switch-1"
        = Some (2, Some {| Connection := "server-1--unbundled--switch-1";
                           Netdev := "socket,udp=127.0.0.1:30204,localaddr=127.0.0.1:30102";
                           Passthrough := "" |},
                Some emptyInterface)
  | Err _ => False
  end.
Proof. vm_compute. by split. Qed.

Lemma C6_link_pairing_witness :
  @linked examplePlatform (vms (registryOf smallData)) "server-1--unbundled--switch-1"
    (port "server-1" "port2") (port "switch-1" "Ethernet3").
Proof.
  assert (Hrun : @NewVMManager examplePlatform exampleConfig smallData "/vlab" "default"
                 = Ok (registryOf smallData)).
  { vm_compute. reflexivity. }
  apply (@C6_link_pairing examplePlatform exampleConfig smallData "/vlab" "default"
           (registryOf smallData)
           {| ConnName := "server-1--unbundled--switch-1";
              Spec := unbundledSpec (port "server-1" "port2") (port "switch-1" "Ethernet3") |}
           [(Some (port "server-1" "port2"), Some (port "switch-1" "Ethernet3"))]
           (port "server-1" "port2") (port "switch-1" "Ethernet3") Hrun).
  - by left.
  - reflexivity.
  - by left.
  - reflexivity.
  - reflexivity.
Defined.

Lemma C7_gap_filling_witness :
  fillGaps ({[ 0 := emptyInterface; 1 := emptyInterface ]} : gmap Z VMInterface)
    = {[ 0 := emptyInterface; 1 := emptyInterface ]} /\
  fillGaps ({[ 2 := pairedInterface "c" 1 2 ]} : gmap Z VMInterface) !! 1 = Some emptyInterface /\
  (forall name vm,
     vms (registryOf smallData) !! name = Some vm -> dense (Interfaces vm)).
Proof.
  split; [|split].
  - destruct (@C7_gap_filling examplePlatform {[ 0 := emptyInterface; 1 := emptyInterface ]})
      as (_ & _ & _ & _ & _ & _ & _ & Hid & _).
    apply Hid. intros i Hi. change (maxDevID _) with 1 in Hi.
    assert (i = 0 \/ i = 1) as [->| ->] by lia; eexists; reflexivity.
  - destruct (@C7_gap_filling examplePlatform {[ 2 := pairedInterface "c" 1 2 ]})
      as (_ & _ & Hfill & _).
    apply Hfill; [done|]. change (maxDevID _) with 2. lia.
  - intros name vm.
    destruct (@C7_gap_filling examplePlatform ∅) as (_ & _ & _ & _ & _ & _ & _ & _ & _ & Hreg).
    apply (Hreg exampleConfig smallData "/vlab" "default").
    vm_compute. reflexivity.
Defined.

End TopologyFacts.

(** ** The server universe and the expected connectivity *)

Module ConnectivityFacts.
Import wiringapi vpcapi Connectivity.

Lemma containsStr_elem (l : list string) (x : string) : containsStr l x = true <-> x ∈ l.
Proof.
  induction l as [|y l IH]; simpl.
  - split; [done|]. intros Hx. by apply elem_of_nil in Hx.
  - rewrite orb_true_iff, IH, elem_of_cons, String.eqb_eq.
    split; (intros [Hx|Hx]; [left; by symmetry|by right]).
Qed.

Lemma containsStr_not_elem (l : list string) (x : string) : containsStr l x = false <-> x ∉ l.
Proof.
  rewrite <- containsStr_elem. destruct (containsStr l x); [|done].
  split; [done|]. intros Hn. by destruct Hn.
Qed.

Section Universe.
Context `{Topology.Platform} `{World}.

Lemma attStep_other (name conn : string)
    (acc : option vpcapi.VPCAttachment * string * list notice) (x : vpcapi.VPCAttachment) :
  AttConnection x <> conn -> attStep name conn acc x = acc.
Proof.
  intros Hne. unfold attStep. destruct acc as [[att subnet] notes].
  by rewrite (proj2 (String.eqb_neq _ _) Hne).
Qed.

Lemma attStep_bound (name conn : string) (att : option vpcapi.VPCAttachment) (subnet : string)
    (notes : list notice) (x : vpcapi.VPCAttachment) :
  AttConnection x = conn ->
  attStep name conn (att, subnet, notes) x =
  match att with
  | Some _ => (att, subnet, notes ++ [SkipMultipleAttachments name])
  | None => (Some x, AttSubnetName x, notes)
  end.
Proof. intros Heq. unfold attStep. by rewrite (proj2 (String.eqb_eq _ _) Heq). Qed.

(** The loop over attachments keeps the first one bound to the connection
    and writes one notice for each further one. *)
Lemma attachments_kept (name conn : string) (atts : list vpcapi.VPCAttachment)
    (a : vpcapi.VPCAttachment) (subnet : string) (notes : list notice) :
  foldl (attStep name conn) (Some a, subnet, notes) atts =
  (Some a, subnet,
   notes ++ replicate (length (filter (fun x => AttConnection x = conn) atts))
                      (SkipMultipleAttachments name)).
Proof.
  revert notes. induction atts as [|x atts IH]; intros notes; cbn [foldl].
  - by rewrite app_nil_r.
  - rewrite filter_cons.
    destruct (decide (AttConnection x = conn)) as [Heq|Hne].
    + rewrite attStep_bound by done. rewrite IH. simpl. by rewrite <- app_assoc.
    + rewrite attStep_other by done. apply IH.
Qed.

Lemma attachments_first (name conn : string) (atts : list vpcapi.VPCAttachment) :
  foldl (attStep name conn) (None, "", []) atts =
  match filter (fun x => AttConnection x = conn) atts with
  | [] => (None, "", [])
  | a :: rest => (Some a, AttSubnetName a,
                  replicate (length rest) (SkipMultipleAttachments name))
  end.
Proof.
  induction atts as [|x atts IH]; cbn [foldl]; [done|].
  rewrite filter_cons.
  destruct (decide (AttConnection x = conn)) as [Heq|Hne].
  - rewrite attStep_bound by done. by rewrite attachments_kept.
  - rewrite attStep_other by done. apply IH.
Qed.

(** The round of a server with two or more attachments bound to its
    connection, when it is not fatal: the notice is written and the server is
    stored with the first of them. *)
Lemma checkServer_multiple_attachments (mngr : Topology.VMManager) (data : Data)
    (atts : list vpcapi.VPCAttachment) (vpcs : list vpcapi.VPC)
    (st st' : gmap string Server * list notice) (server : wiringapi.Server)
    (vm : Topology.VM) (cc : chosenConn) (a1 a2 : vpcapi.VPCAttachment)
    (rest : list vpcapi.VPCAttachment) :
  IsControl server = false ->
  Topology.vms mngr !! ServerName server = Some vm ->
  forFlow (connStep (ServerName server)) (Connections data) None = Next (Some cc) ->
  filter (fun x => AttConnection x = ConnName (ccConnection cc)) atts = a1 :: a2 :: rest ->
  checkServer mngr data atts vpcs st server = Ok st' ->
  SkipMultipleAttachments (ServerName server) ∈ st'.2 /\
  exists srv, st'.1 !! ServerName server = Some srv /\ VPCAttachment srv = Some a1.
Proof.
  intros Hctl Hvm Hconn Hatts. unfold checkServer.
  rewrite Hctl, Hvm, Hconn, attachments_first, Hatts.
  destruct (forM (vpcStep (ServerName server) a1) vpcs None) as [vpc|]; simpl; [|done].
  destruct (ssh _ ipCommand 0) as [out failed].
  destruct failed; [done|].
  destruct (ParseCIDR (TrimSpace out)) as [[ip ipNet]|]; [|done].
  destruct vpc as [v|]; [|done].
  destruct (Subnets v !! AttSubnetName a1) as [sn|]; [|done].
  destruct (negb (String.eqb ipNet (vpcapi.Subnet sn))); [done|].
  intros [= <-]. simpl. split.
  - rewrite elem_of_app. right. by left.
  - rewrite lookup_insert_eq. by eexists.
Qed.

Lemma universeGrows_refl (st : gmap string Server * list notice) : universeGrows st st.
Proof. by split. Qed.

Lemma universeGrows_trans (s1 s2 s3 : gmap string Server * list notice) :
  universeGrows s1 s2 -> universeGrows s2 s3 -> universeGrows s1 s3.
Proof. intros [K12 N12] [K23 N23]. split; auto. Qed.

Lemma universeGrows_note (st : gmap string Server * list notice) (notes : list notice) :
  universeGrows st (st.1, st.2 ++ notes).
Proof. split; [done|]. intros n Hn. apply elem_of_app. by left. Qed.

Lemma checkServer_grows (mngr : Topology.VMManager) (data : Data)
    (atts : list vpcapi.VPCAttachment) (vpcs : list vpcapi.VPC)
    (st st' : gmap string Server * list notice) (server : wiringapi.Server) :
  checkServer mngr data atts vpcs st server = Ok st' -> universeGrows st st'.
Proof.
  unfold checkServer. intros Hrun.
  destruct (IsControl server); [simplify_eq; apply universeGrows_refl|].
  destruct (Topology.vms mngr !! ServerName server) as [vm|];
    [|simplify_eq; apply universeGrows_note].
  destruct (forFlow _ _ None) as [[cc|]|n|e];
    [|simplify_eq; apply universeGrows_note..|done].
  destruct (foldl _ _ atts) as [[[att|] subnet] notes];
    [|simplify_eq; apply universeGrows_note].
  destruct (forM _ vpcs None) as [vpc|]; [|done]. simpl in Hrun.
  destruct (ssh _ ipCommand 0) as [out failed].
  destruct failed; [done|].
  destruct (ParseCIDR (TrimSpace out)) as [[ip ipNet]|]; [|done].
  destruct vpc as [v|]; [|done].
  destruct (Subnets v !! subnet) as [sn|]; [|done].
  destruct (negb (String.eqb ipNet (vpcapi.Subnet sn))); [done|].
  injection Hrun as <-. split; simpl.
  - intros k Hk. destruct (decide (ServerName server = k)) as [<-|Hne].
    + rewrite lookup_insert_eq. eauto.
    + by rewrite lookup_insert_ne.
  - intros n Hn. apply elem_of_app. by left.
Qed.

(** C3 fails on the code. For a server that is not the control node, has a
    VM and one qualifying connection, with two or more VPC attachments bound
    to that connection: whenever Phase B is not fatal, the notice "Skipping
    server (multiple VPC attachments)" is in the log and yet the server is in
    the test universe. *)
Theorem C3_multiple_attachments_kept (mngr : Topology.VMManager) (data : Data)
    (atts : list vpcapi.VPCAttachment) (vpcs : list vpcapi.VPC)
    (servers : gmap string Server) (notes : list notice) (server : wiringapi.Server)
    (vm : Topology.VM) (cc : chosenConn) (a1 a2 : vpcapi.VPCAttachment)
    (rest : list vpcapi.VPCAttachment) :
  server ∈ Servers data ->
  IsControl server = false ->
  Topology.vms mngr !! ServerName server = Some vm ->
  forFlow (connStep (ServerName server)) (Connections data) None = Next (Some cc) ->
  filter (fun x => AttConnection x = ConnName (ccConnection cc)) atts = a1 :: a2 :: rest ->
  buildServers mngr data atts vpcs = Ok (servers, notes) ->
  SkipMultipleAttachments (ServerName server) ∈ notes /\
  is_Some (servers !! ServerName server).
Proof.
  intros Hin Hctl Hvm Hconn Hatts Hrun. unfold buildServers in Hrun.
  assert (Hstep : forall st x st', x ∈ Servers data ->
            checkServer mngr data atts vpcs st x = Ok st' -> universeGrows st st').
  { intros ???? Hs. by eapply checkServer_grows. }
  destruct (Loops.forM_round universeGrows (checkServer mngr data atts vpcs) _ server _ _
              universeGrows_refl universeGrows_trans Hstep Hin Hrun)
    as (st1 & st2 & _ & Hround & [Hkeep Hnotes]).
  destruct (checkServer_multiple_attachments _ _ _ _ _ _ _ _ _ _ _ _
              Hctl Hvm Hconn Hatts Hround) as (Hnote & srv & Hsrv & _).
  split.
  - by apply Hnotes.
  - apply Hkeep. eauto.
Qed.

End Universe.

(** *** Phase B leaves a fresh universe *)

Section Fresh.
Context `{Topology.Platform} `{World}.

Lemma checkServer_fresh (mngr : Topology.VMManager) (data : Data)
    (atts : list vpcapi.VPCAttachment) (vpcs : list vpcapi.VPC)
    (st st' : gmap string Server * list notice) (server : wiringapi.Server) :
  checkServer mngr data atts vpcs st server = Ok st' -> fresh st.1 -> fresh st'.1.
Proof.
  unfold checkServer. intros Hrun Hfresh.
  destruct (IsControl server); [by simplify_eq|].
  destruct (Topology.vms mngr !! ServerName server) as [vm|]; [|by simplify_eq].
  destruct (forFlow _ _ None) as [[cc|]|n|e]; [|by simplify_eq..|done].
  destruct (foldl _ _ atts) as [[[att|] subnet] notes]; [|by simplify_eq].
  destruct (forM _ vpcs None) as [vpc|]; [|done]. simpl in Hrun.
  destruct (ssh _ ipCommand 0) as [out failed].
  destruct failed; [done|].
  destruct (ParseCIDR (TrimSpace out)) as [[ip ipNet]|]; [|done].
  destruct vpc as [v|]; [|done].
  destruct (Subnets v !! subnet) as [sn|]; [|done].
  destruct (negb (String.eqb ipNet (vpcapi.Subnet sn))); [done|].
  injection Hrun as <-. simpl.
  intros k s Hk. destruct (decide (ServerName server = k)) as [<-|Hne].
  - rewrite lookup_insert_eq in Hk. injection Hk as <-. simpl. eauto 10.
  - rewrite lookup_insert_ne in Hk by done. by apply Hfresh.
Qed.

Lemma buildServers_fresh (mngr : Topology.VMManager) (data : Data)
    (atts : list vpcapi.VPCAttachment) (vpcs : list vpcapi.VPC)
    (servers : gmap string Server) (notes : list notice) :
  buildServers mngr data atts vpcs = Ok (servers, notes) -> fresh servers.
Proof.
  unfold buildServers. intros Hrun.
  apply (Loops.forM_preserves (fun s s' => fresh s.1 -> fresh s'.1)
           (checkServer mngr data atts vpcs) (Servers data) (∅, []) (servers, notes));
    [done|by auto| |done|done].
  intros st x st' _ Hstep. by eapply checkServer_fresh.
Qed.

Lemma fresh_oneExternal (servers : gmap string Server) : fresh servers -> oneExternal servers.
Proof.
  intros Hfresh k s Hk. destruct (Hfresh k s Hk) as (_ & _ & _ & -> & _). simpl.
  split; [lia|done].
Qed.

Lemma fresh_peersConsistent (servers : gmap string Server) :
  fresh servers -> peersConsistent servers.
Proof.
  intros Hfresh.
  assert (Hnil : forall x, peersOf servers x = []).
  { intros x. unfold peersOf. destruct (servers !! x) as [s|] eqn:Hx; [|done].
    simpl. by destruct (Hfresh x s Hx) as (_ & _ & -> & _). }
  split.
  - intros x. rewrite Hnil. constructor.
  - intros x y. rewrite Hnil. intros Hy. by apply elem_of_nil in Hy.
Qed.

End Fresh.

(** *** External peerings *)

Lemma externalsGrow_refl (servers : gmap string Server) : externalsGrow servers servers.
Proof. split; [|done]. intros k s Hk. exists s. eauto 10. Qed.

Lemma externalsGrow_trans (s1 s2 s3 : gmap string Server) :
  externalsGrow s1 s2 -> externalsGrow s2 s3 -> externalsGrow s1 s3.
Proof.
  intros [H12 N12] [H23 N23]. split; [|by auto].
  intros k s Hk.
  destruct (H12 k s Hk) as (s' & Hk' & Hn & Hv & Hs & Hp & He).
  destruct (H23 k s' Hk') as (s'' & Hk'' & Hn' & Hv' & Hs' & Hp' & He').
  exists s''. repeat split; [done|congruence..|auto].
Qed.

Lemma subnetStep_inv (p : vpcapi.ExternalPeering) (key : string)
    (servers servers' : gmap string Server) (subnet : string) :
  subnetStep p key servers subnet = Ok servers' ->
  exists server, servers !! key = Some server /\
    ((servers' = servers /\
      (Subnet server <> subnet \/ PermitExternalName p ∈ Externals server)) \/
     (Subnet server = subnet /\ (PermitExternalName p ∉ Externals server) /\
      ExternalPeering server = None /\
      servers' = <[key := setExternal server p (Externals server ++ [PermitExternalName p])]>
                   servers)).
Proof.
  unfold subnetStep. intros Hrun.
  destruct (servers !! key) as [server|]; [|done]. exists server. split; [done|].
  destruct (String.eqb (Subnet server) subnet) eqn:Hs; simpl in Hrun.
  - apply String.eqb_eq in Hs.
    destruct (containsStr (Externals server) (PermitExternalName p)) eqn:Hc.
    + apply containsStr_elem in Hc. simplify_eq. left. auto.
    + apply containsStr_not_elem in Hc.
      destruct (ExternalPeering server) eqn:He; [done|]. simplify_eq. right. auto.
  - apply String.eqb_neq in Hs. simplify_eq. left. auto.
Qed.

Lemma subnetStep_grow (p : vpcapi.ExternalPeering) (key : string)
    (servers servers' : gmap string Server) (subnet : string) :
  subnetStep p key servers subnet = Ok servers' -> externalsGrow servers servers'.
Proof.
  intros (server & Hkey & [[-> _]|(_ & _ & _ & ->)])%subnetStep_inv;
    [apply externalsGrow_refl|].
  split.
  - intros k s Hk. destruct (decide (key = k)) as [<-|Hne].
    + rewrite lookup_insert_eq. eexists. split; [done|]. simplify_eq. simpl.
      repeat split. intros x Hx. apply elem_of_app. by left.
    + rewrite lookup_insert_ne by done. exists s. eauto 10.
  - intros k Hk. rewrite lookup_insert_ne; [done|]. congruence.
Qed.

Lemma subnetStep_oneExternal (p : vpcapi.ExternalPeering) (key : string)
    (servers servers' : gmap string Server) (subnet : string) :
  subnetStep p key servers subnet = Ok servers' -> oneExternal servers -> oneExternal servers'.
Proof.
  intros (server & Hkey & [[-> _]|(_ & _ & Hnone & ->)])%subnetStep_inv Hone; [done|].
  intros k s Hk. destruct (decide (key = k)) as [<-|Hne].
  - rewrite lookup_insert_eq in Hk. injection Hk as <-. simpl.
    destruct (Hone key server Hkey) as [_ Hnil]. rewrite (Hnil Hnone). simpl.
    split; [lia|done].
  - rewrite lookup_insert_ne in Hk by done. by apply (Hone k).
Qed.

Section External.
Context `{World}.

Lemma rangeServers_elem (servers : gmap string Server) (k : string) (s : Server) :
  (k, s) ∈ rangeServers servers <-> servers !! k = Some s.
Proof. by rewrite (rangeServers_perm servers), elem_of_map_to_list. Qed.

Lemma externalServerStep_inv (p : vpcapi.ExternalPeering) (servers servers' : gmap string Server)
    (kv : string * Server) :
  externalServerStep p servers kv = Ok servers' ->
  exists v, VPC kv.2 = Some v /\
    if String.eqb (VPCName v) (PermitVPCName p)
    then forM (subnetStep p kv.1) (PermitVPCSubnets p) servers = Ok servers'
    else servers' = servers.
Proof.
  unfold externalServerStep, vpcNameOf. intros Hrun.
  destruct (VPC kv.2) as [v|]; [|done]. exists v. split; [done|]. simpl in Hrun.
  destruct (String.eqb (VPCName v) (PermitVPCName p)); simpl in Hrun; [done|by simplify_eq].
Qed.

Lemma subnets_grow (p : vpcapi.ExternalPeering) (key : string) (subnets : list string)
    (servers servers' : gmap string Server) :
  forM (subnetStep p key) subnets servers = Ok servers' -> externalsGrow servers servers'.
Proof.
  apply (Loops.forM_preserves externalsGrow (subnetStep p key) subnets);
    [apply externalsGrow_refl|apply externalsGrow_trans|].
  intros ???? Hstep. by eapply subnetStep_grow.
Qed.

Lemma subnets_oneExternal (p : vpcapi.ExternalPeering) (key : string) (subnets : list string)
    (servers servers' : gmap string Server) :
  forM (subnetStep p key) subnets servers = Ok servers' ->
  oneExternal servers -> oneExternal servers'.
Proof.
  apply (Loops.forM_preserves (fun s s' => oneExternal s -> oneExternal s')
           (subnetStep p key) subnets); [done|by auto|].
  intros ???? Hstep. by eapply subnetStep_oneExternal.
Qed.

Lemma externalServerStep_grow (p : vpcapi.ExternalPeering)
    (servers servers' : gmap string Server) (kv : string * Server) :
  externalServerStep p servers kv = Ok servers' -> externalsGrow servers servers'.
Proof.
  intros (v & _ & Hrun)%externalServerStep_inv.
  destruct (String.eqb (VPCName v) (PermitVPCName p)).
  - by eapply subnets_grow.
  - subst. apply externalsGrow_refl.
Qed.

Lemma externalServerStep_oneExternal (p : vpcapi.ExternalPeering)
    (servers servers' : gmap string Server) (kv : string * Server) :
  externalServerStep p servers kv = Ok servers' -> oneExternal servers -> oneExternal servers'.
Proof.
  intros (v & _ & Hrun)%externalServerStep_inv.
  destruct (String.eqb (VPCName v) (PermitVPCName p)).
  - by eapply subnets_oneExternal.
  - by subst.
Qed.

Lemma externalStep_inv (servers servers' : gmap string Server) (p : vpcapi.ExternalPeering) :
  externalStep servers p = Ok servers' ->
  forM (externalServerStep p) (rangeServers servers) servers = Ok servers'.
Proof.
  unfold externalStep. by destruct (negb (existsb _ _)).
Qed.

Lemma externalStep_grow (servers servers' : gmap string Server) (p : vpcapi.ExternalPeering) :
  externalStep servers p = Ok servers' -> externalsGrow servers servers'.
Proof.
  intros Hrun%externalStep_inv. revert Hrun.
  apply (Loops.forM_preserves externalsGrow (externalServerStep p) (rangeServers servers));
    [apply externalsGrow_refl|apply externalsGrow_trans|].
  intros ???? Hstep. by eapply externalServerStep_grow.
Qed.

Lemma externalStep_oneExternal (servers servers' : gmap string Server)
    (p : vpcapi.ExternalPeering) :
  externalStep servers p = Ok servers' -> oneExternal servers -> oneExternal servers'.
Proof.
  intros Hrun%externalStep_inv. revert Hrun.
  apply (Loops.forM_preserves (fun s s' => oneExternal s -> oneExternal s')
           (externalServerStep p) (rangeServers servers)); [done|by auto|].
  intros ???? Hstep. by eapply externalServerStep_oneExternal.
Qed.

(** After the round of a peering, every server its permit matches holds the
    peering's external. *)
Lemma externalStep_adds (servers servers' : gmap string Server) (p : vpcapi.ExternalPeering)
    (k : string) (s : Server) :
  externalStep servers p = Ok servers' -> servers !! k = Some s -> permits p s ->
  exists s', servers' !! k = Some s' /\ PermitExternalName p ∈ Externals s'.
Proof.
  intros Hrun%externalStep_inv Hk [Hvpc Hsub].
  assert (Hstep1 : forall t x t', x ∈ rangeServers servers ->
                     externalServerStep p t x = Ok t' -> externalsGrow t t').
  { intros ???? Hs. by eapply externalServerStep_grow. }
  destruct (Loops.forM_round externalsGrow (externalServerStep p) _ (k, s) _ _
              externalsGrow_refl externalsGrow_trans Hstep1
              (proj2 (rangeServers_elem servers k s) Hk) Hrun)
    as (t1 & t2 & Hg1 & Hstep & Hg2).
  apply externalServerStep_inv in Hstep as (v & Hv & Hstep). cbn [fst snd] in Hv, Hstep.
  rewrite Hv in Hvpc. simpl in Hvpc. injection Hvpc as Hvpc.
  rewrite (proj2 (String.eqb_eq _ _) Hvpc) in Hstep.
  assert (Hstep2 : forall t x t', x ∈ PermitVPCSubnets p ->
                     subnetStep p k t x = Ok t' -> externalsGrow t t').
  { intros ???? Hs. by eapply subnetStep_grow. }
  destruct (Loops.forM_round externalsGrow (subnetStep p k) _ (Subnet s) _ _
              externalsGrow_refl externalsGrow_trans Hstep2 Hsub Hstep)
    as (u1 & u2 & Hh1 & Hsn & Hh2).
  destruct (proj1 (externalsGrow_trans _ _ _ Hg1 Hh1) k s Hk)
    as (su & Hku & _ & _ & Hsu & _).
  assert (Hin : exists s2, u2 !! k = Some s2 /\ PermitExternalName p ∈ Externals s2).
  { apply subnetStep_inv in Hsn as (server & Hkey & Hcase).
    rewrite Hku in Hkey. injection Hkey as <-.
    destruct Hcase as [[-> [Hne|Hin]]|(_ & _ & _ & ->)].
    - congruence.
    - eauto.
    - rewrite lookup_insert_eq. eexists. split; [done|]. simpl.
      apply elem_of_app. right. by left. }
  destruct Hin as (s2 & Hk2 & Hin).
  destruct (proj1 (externalsGrow_trans _ _ _ Hh2 Hg2) k s2 Hk2)
    as (s' & Hk' & _ & _ & _ & _ & Hkeep).
  exists s'. split; [done|]. by apply Hkeep.
Qed.

(** Two peerings with different externals whose permits match one server
    make the external-peering pass fail. *)
Lemma externalPeerings_conflict (peerings : list vpcapi.ExternalPeering)
    (servers : gmap string Server) (p1 p2 : vpcapi.ExternalPeering) (k : string) (s : Server) :
  oneExternal servers -> servers !! k = Some s ->
  p1 ∈ peerings -> p2 ∈ peerings -> permits p1 s -> permits p2 s ->
  PermitExternalName p1 <> PermitExternalName p2 ->
  exists e, externalPeerings peerings servers = Err e.
Proof.
  intros Hone Hk Hp1 Hp2 Hm1 Hm2 Hne.
  destruct (externalPeerings peerings servers) as [final|e] eqn:Hrun; [exfalso|eauto].
  unfold externalPeerings in Hrun.
  assert (Hstep : forall t x t', x ∈ peerings -> externalStep t x = Ok t' -> externalsGrow t t').
  { intros ???? Hs. by eapply externalStep_grow. }
  assert (Hfinal : oneExternal final).
  { revert Hone. revert Hrun.
    apply (Loops.forM_preserves (fun s s' => oneExternal s -> oneExternal s')
             externalStep peerings); [done|by auto|].
    intros ???? Hs. by eapply externalStep_oneExternal. }
  assert (Hhas : forall p, p ∈ peerings -> permits p s ->
            exists sf, final !! k = Some sf /\ PermitExternalName p ∈ Externals sf).
  { intros p Hp Hm.
    destruct (Loops.forM_round externalsGrow externalStep _ p _ _
                externalsGrow_refl externalsGrow_trans Hstep Hp Hrun)
      as (t1 & t2 & Hg1 & Hround & Hg2).
    destruct (proj1 Hg1 k s Hk) as (s1 & Hk1 & _ & Hv1 & Hs1 & _).
    destruct (externalStep_adds t1 t2 p k s1 Hround Hk1) as (s2 & Hk2 & Hin2).
    { destruct Hm as [Hv Hs]. split; congruence. }
    destruct (proj1 Hg2 k s2 Hk2) as (sf & Hkf & _ & _ & _ & _ & Hkeep).
    exists sf. split; [done|]. by apply Hkeep. }
  destruct (Hhas p1 Hp1 Hm1) as (sf & Hkf & Hin1).
  destruct (Hhas p2 Hp2 Hm2) as (sf' & Hkf' & Hin2).
  rewrite Hkf in Hkf'. injection Hkf' as <-.
  destruct (Hfinal k sf Hkf) as [Hlen _].
  destruct (Externals sf) as [|x [|y l]]; simpl in Hlen; [|  |lia].
  - by apply elem_of_nil in Hin1.
  - apply list_elem_of_singleton in Hin1, Hin2. congruence.
Qed.

End External.

(** *** VPC peerings *)

Lemma peersGrow_refl (servers : gmap string Server) : peersGrow servers servers.
Proof. split; [|done]. intros k s Hk. exists s. eauto 10. Qed.

Lemma peersGrow_trans (s1 s2 s3 : gmap string Server) :
  peersGrow s1 s2 -> peersGrow s2 s3 -> peersGrow s1 s3.
Proof.
  intros [H12 N12] [H23 N23]. split; [|by auto].
  intros k s Hk.
  destruct (H12 k s Hk) as (s' & Hk' & Hn & Hv & Hs & He & Hp).
  destruct (H23 k s' Hk') as (s'' & Hk'' & Hn' & Hv' & Hs' & He' & Hp').
  exists s''. repeat split; [done|congruence..].
Qed.

Lemma addPeer_inv (servers servers' : gmap string Server) (a b : string) :
  addPeer servers a b = Ok servers' ->
  exists sa, servers !! a = Some sa /\
    ((b ∈ VPCPeers sa /\ servers' = servers) \/
     ((b ∉ VPCPeers sa) /\ servers' = <[a := setVPCPeers sa (VPCPeers sa ++ [b])]> servers)).
Proof.
  unfold addPeer. intros Hrun.
  destruct (servers !! a) as [sa|]; [|done]. exists sa. split; [done|].
  destruct (containsStr (VPCPeers sa) b) eqn:Hc; simplify_eq.
  - left. by apply containsStr_elem in Hc.
  - right. by apply containsStr_not_elem in Hc.
Qed.

Lemma addPeer_grow (servers servers' : gmap string Server) (a b : string) :
  addPeer servers a b = Ok servers' -> peersGrow servers servers'.
Proof.
  intros (sa & Ha & [[_ ->]|[_ ->]])%addPeer_inv; [apply peersGrow_refl|].
  split.
  - intros k s Hk. destruct (decide (a = k)) as [<-|Hne].
    + rewrite lookup_insert_eq. eexists. split; [done|]. by simplify_eq.
    + rewrite lookup_insert_ne by done. exists s. eauto 10.
  - intros k Hk. rewrite lookup_insert_ne; [done|]. congruence.
Qed.

(** The peer lists after [addPeer servers a b]: [b] is added to the list of
    [a] unless it is there. *)
Lemma addPeer_peersOf (servers servers' : gmap string Server) (a b x : string) :
  addPeer servers a b = Ok servers' ->
  peersOf servers' x =
  if bool_decide (x = a /\ b ∉ peersOf servers a)
  then peersOf servers a ++ [b] else peersOf servers x.
Proof.
  intros (sa & Ha & Hcase)%addPeer_inv.
  assert (Hpa : peersOf servers a = VPCPeers sa) by (unfold peersOf; by rewrite Ha).
  rewrite Hpa. destruct Hcase as [[Hin ->]|[Hnotin ->]].
  - rewrite bool_decide_eq_false_2; [done|]. by intros [_ Hn].
  - destruct (decide (x = a)) as [->|Hne].
    + rewrite bool_decide_eq_true_2 by done. unfold peersOf. by rewrite lookup_insert_eq.
    + rewrite bool_decide_eq_false_2 by (by intros [? _]).
      unfold peersOf. by rewrite lookup_insert_ne.
Qed.

Lemma addPeer_elem (servers servers' : gmap string Server) (a b x y : string) :
  addPeer servers a b = Ok servers' ->
  y ∈ peersOf servers' x <-> y ∈ peersOf servers x \/ (x = a /\ y = b).
Proof.
  intros Hrun. rewrite (addPeer_peersOf _ _ _ _ x Hrun).
  case_bool_decide as Hc.
  - destruct Hc as [-> Hnotin]. rewrite elem_of_app, list_elem_of_singleton.
    split; [intros [Hin|Hb]; [by left|by right]|intros [Hin|[_ Hb]]; [by left|by right]].
  - split; [by left|]. intros [Hin|[-> ->]]; [done|].
    destruct (decide (b ∈ peersOf servers a)) as [Hin|Hnotin]; [done|].
    destruct Hc. done.
Qed.

Lemma addPeer_NoDup (servers servers' : gmap string Server) (a b : string) :
  addPeer servers a b = Ok servers' ->
  (forall x, NoDup (peersOf servers x)) -> forall x, NoDup (peersOf servers' x).
Proof.
  intros Hrun Hnd x. rewrite (addPeer_peersOf _ _ _ _ x Hrun).
  case_bool_decide as Hc; [|done].
  destruct Hc as [-> Hnotin]. apply NoDup_app. split; [done|]. split.
  - intros y Hy Hb. apply list_elem_of_singleton in Hb. by subst.
  - apply NoDup_singleton.
Qed.

Lemma pairStep_inv (a b : string) (servers servers' : gmap string Server) :
  pairStep a servers b = Ok servers' ->
  exists s1, addPeer servers a b = Ok s1 /\ addPeer s1 b a = Ok servers'.
Proof.
  unfold pairStep. intros Hrun.
  destruct (addPeer servers a b) as [s1|]; [|discriminate Hrun]. eauto.
Qed.

Lemma pairStep_grow (a b : string) (servers servers' : gmap string Server) :
  pairStep a servers b = Ok servers' -> peersGrow servers servers'.
Proof.
  intros (s1 & H1 & H2)%pairStep_inv.
  eapply peersGrow_trans; by eapply addPeer_grow.
Qed.

(** Adding a pair in both directions keeps the peer lists duplicate-free and
    the relation symmetric. *)
Lemma pairStep_consistent (a b : string) (servers servers' : gmap string Server) :
  pairStep a servers b = Ok servers' -> peersConsistent servers -> peersConsistent servers'.
Proof.
  intros (s1 & H1 & H2)%pairStep_inv [Hnd Hsym]. split.
  - apply (addPeer_NoDup _ _ _ _ H2). by apply (addPeer_NoDup _ _ _ _ H1).
  - intros x y. rewrite !(addPeer_elem _ _ _ _ _ _ H2), !(addPeer_elem _ _ _ _ _ _ H1).
    intros [[Hin|[-> ->]]|[-> ->]]; [left; left; by apply Hsym|by right|left; by right].
Qed.

Section Peerings.
Context `{World}.

Lemma pairs_grow (a : string) (bs : list string) (servers servers' : gmap string Server) :
  forM (pairStep a) bs servers = Ok servers' -> peersGrow servers servers'.
Proof.
  apply (Loops.forM_preserves peersGrow (pairStep a) bs);
    [apply peersGrow_refl|apply peersGrow_trans|].
  intros ???? Hstep. by eapply pairStep_grow.
Qed.

Lemma pairs_consistent (a : string) (bs : list string) (servers servers' : gmap string Server) :
  forM (pairStep a) bs servers = Ok servers' ->
  peersConsistent servers -> peersConsistent servers'.
Proof.
  apply (Loops.forM_preserves (fun s s' => peersConsistent s -> peersConsistent s')
           (pairStep a) bs); [done|by auto|].
  intros ???? Hstep. by eapply pairStep_consistent.
Qed.

Lemma peeringStep_inv (servers servers' : gmap string Server) (peering : vpcapi.VPCPeering) :
  peeringStep servers peering = Ok servers' ->
  exists l1 l2,
    forM (fun servers server1 => forM (pairStep server1) l2 servers) l1 servers = Ok servers'.
Proof.
  unfold peeringStep. intros Hrun.
  destruct (PeeringVPCs peering) as [[vpc1 vpc2]|]; [|done].
  destruct (forM (collectStep vpc1 vpc2) _ _) as [[l1 l2]|]; [|done]. simpl in Hrun.
  repeat case_bool_decide; try done. eauto.
Qed.

Lemma peeringStep_grow (servers servers' : gmap string Server) (peering : vpcapi.VPCPeering) :
  peeringStep servers peering = Ok servers' -> peersGrow servers servers'.
Proof.
  intros (l1 & l2 & Hrun)%peeringStep_inv. revert Hrun.
  apply (Loops.forM_preserves peersGrow
           (fun servers server1 => forM (pairStep server1) l2 servers) l1);
    [apply peersGrow_refl|apply peersGrow_trans|].
  intros ???? Hstep. by eapply pairs_grow.
Qed.

Lemma peeringStep_consistent (servers servers' : gmap string Server)
    (peering : vpcapi.VPCPeering) :
  peeringStep servers peering = Ok servers' ->
  peersConsistent servers -> peersConsistent servers'.
Proof.
  intros (l1 & l2 & Hrun)%peeringStep_inv. revert Hrun.
  apply (Loops.forM_preserves (fun s s' => peersConsistent s -> peersConsistent s')
           (fun servers server1 => forM (pairStep server1) l2 servers) l1); [done|by auto|].
  intros ???? Hstep. by eapply pairs_consistent.
Qed.

Lemma vpcPeerings_grow (peerings : list vpcapi.VPCPeering)
    (servers servers' : gmap string Server) :
  vpcPeerings peerings servers = Ok servers' -> peersGrow servers servers'.
Proof.
  apply (Loops.forM_preserves peersGrow peeringStep peerings);
    [apply peersGrow_refl|apply peersGrow_trans|].
  intros ???? Hstep. by eapply peeringStep_grow.
Qed.

Lemma vpcPeerings_consistent (peerings : list vpcapi.VPCPeering)
    (servers servers' : gmap string Server) :
  vpcPeerings peerings servers = Ok servers' ->
  peersConsistent servers -> peersConsistent servers'.
Proof.
  apply (Loops.forM_preserves (fun s s' => peersConsistent s -> peersConsistent s')
           peeringStep peerings); [done|by auto|].
  intros ???? Hstep. by eapply peeringStep_consistent.
Qed.

Lemma externalPeerings_grow (externals : list vpcapi.ExternalPeering)
    (servers servers' : gmap string Server) :
  externalPeerings externals servers = Ok servers' -> externalsGrow servers servers'.
Proof.
  apply (Loops.forM_preserves externalsGrow externalStep externals);
    [apply externalsGrow_refl|apply externalsGrow_trans|].
  intros ???? Hstep. by eapply externalStep_grow.
Qed.

Lemma externalsGrow_peersOf (servers servers' : gmap string Server) (x : string) :
  externalsGrow servers servers' -> peersOf servers' x = peersOf servers x.
Proof.
  intros [Hkeep Hnone]. unfold peersOf.
  destruct (servers !! x) as [s|] eqn:Hx.
  - destruct (Hkeep x s Hx) as (s' & -> & _ & _ & _ & Hp & _). done.
  - by rewrite (Hnone x Hx).
Qed.

Lemma expectedConnectivity_inv (peerings : list vpcapi.VPCPeering)
    (externals : list vpcapi.ExternalPeering) (servers servers' : gmap string Server) :
  expectedConnectivity peerings externals servers = Ok servers' ->
  exists s1, vpcPeerings peerings servers = Ok s1 /\ externalPeerings externals s1 = Ok servers'.
Proof.
  unfold expectedConnectivity. intros Hrun.
  destruct (vpcPeerings peerings servers) as [s1|]; [|discriminate Hrun]. eauto.
Qed.

(** C10. After Phase B and the derivation of the expected connectivity,
    every server is stored under its name, no peer name occurs twice in a
    peer list, every peer is a server of the universe, and B is in the peer
    list of A if and only if A is in the peer list of B. *)
Theorem C10_peers_consistent `{Topology.Platform} (mngr : Topology.VMManager) (data : Data)
    (atts : list vpcapi.VPCAttachment) (vpcs : list vpcapi.VPC)
    (peerings : list vpcapi.VPCPeering) (externals : list vpcapi.ExternalPeering)
    (servers0 servers : gmap string Server) (notes : list notice) :
  buildServers mngr data atts vpcs = Ok (servers0, notes) ->
  expectedConnectivity peerings externals servers0 = Ok servers ->
  (forall a sa, servers !! a = Some sa -> Name sa = a /\ NoDup (VPCPeers sa)) /\
  (forall a b sa, servers !! a = Some sa -> b ∈ VPCPeers sa ->
     exists sb, servers !! b = Some sb /\ a ∈ VPCPeers sb) /\
  (forall a b sa sb, servers !! a = Some sa -> servers !! b = Some sb ->
     b ∈ VPCPeers sa <-> a ∈ VPCPeers sb).
Proof.
  intros Hfresh%buildServers_fresh (s1 & Hvpc & Hext)%expectedConnectivity_inv.
  pose proof (vpcPeerings_grow _ _ _ Hvpc) as Hg1.
  pose proof (externalPeerings_grow _ _ _ Hext) as Hg2.
  assert (Hcons : peersConsistent servers).
  { pose proof (vpcPeerings_consistent _ _ _ Hvpc (fresh_peersConsistent _ Hfresh))
      as [Hnd Hsym].
    split.
    - intros x. rewrite (externalsGrow_peersOf _ _ x Hg2). apply Hnd.
    - intros x y. rewrite !(externalsGrow_peersOf _ _ _ Hg2). apply Hsym. }
  destruct Hcons as [Hnd Hsym].
  assert (Hpeers : forall a sa, servers !! a = Some sa -> peersOf servers a = VPCPeers sa).
  { intros a sa Ha. unfold peersOf. by rewrite Ha. }
  assert (Hin : forall a b sa, servers !! a = Some sa -> b ∈ VPCPeers sa ->
                  exists sb, servers !! b = Some sb /\ a ∈ VPCPeers sb).
  { intros a b sa Ha Hb. rewrite <- (Hpeers a sa Ha) in Hb. apply Hsym in Hb.
    unfold peersOf in Hb. destruct (servers !! b) as [sb|]; [eauto|].
    by apply elem_of_nil in Hb. }
  split; [|split; [exact Hin|]].
  - intros a sa Ha. split.
    + destruct (servers0 !! a) as [s0|] eqn:Hs0.
      * destruct (proj1 Hg1 a s0 Hs0) as (s1' & Hs1 & Hn1 & _).
        destruct (proj1 Hg2 a s1' Hs1) as (s2' & Hs2 & Hn2 & _).
        rewrite Ha in Hs2. injection Hs2 as <-.
        destruct (Hfresh a s0 Hs0) as [Hname _]. congruence.
      * apply (proj2 Hg1) in Hs0. apply (proj2 Hg2) in Hs0. congruence.
    + rewrite <- (Hpeers a sa Ha). apply Hnd.
  - intros a b sa sb Ha Hb. split; intros Hmem.
    + destruct (Hin a b sa Ha Hmem) as (sb' & Hb' & Hres). congruence.
    + destruct (Hin b a sb Hb Hmem) as (sa' & Ha' & Hres). congruence.
Qed.

(** C9, amended. When the permits of two external peerings that name
    different externals match the VPC and subnet of one server of the
    universe, the derivation of the expected connectivity fails and the run
    returns that error: no check is executed. *)
Theorem C9_conflicting_externals_abort `{Topology.Platform}
    (c : ServerConnectivityTestConfig) (mngr : Topology.VMManager) (data : Data)
    (atts : list vpcapi.VPCAttachment) (peerings : list vpcapi.VPCPeering)
    (vpcs : list vpcapi.VPC) (externals : list vpcapi.ExternalPeering)
    (servers0 : gmap string Server) (notes : list notice)
    (k : string) (s : Server) (p1 p2 : vpcapi.ExternalPeering) :
  buildServers mngr data atts vpcs = Ok (servers0, notes) ->
  servers0 !! k = Some s ->
  p1 ∈ externals -> p2 ∈ externals -> permits p1 s -> permits p2 s ->
  PermitExternalName p1 <> PermitExternalName p2 ->
  exists e, expectedConnectivity peerings externals servers0 = Err e /\
            TestServerConnectivity c mngr data atts peerings vpcs externals = Err e.
Proof.
  intros Hbuild Hk Hp1 Hp2 [Hv1 Hs1] [Hv2 Hs2] Hne.
  pose proof (buildServers_fresh _ _ _ _ _ _ Hbuild) as Hfresh.
  unfold TestServerConnectivity, expectedConnectivity. rewrite Hbuild. simpl.
  destruct (vpcPeerings peerings servers0) as [s1|e] eqn:Hvpc; simpl; [|eauto].
  apply vpcPeerings_grow in Hvpc as [Hkeep Hnone].
  destruct (Hkeep k s Hk) as (s' & Hk' & _ & Hv & Hs & _).
  destruct (externalPeerings_conflict externals s1 p1 p2 k s') as [e He]; try done.
  - intros k2 s2 Hk2.
    destruct (servers0 !! k2) as [s0|] eqn:Hs0.
    + destruct (Hkeep k2 s0 Hs0) as (s2' & Hk2' & _ & _ & _ & He & Hp).
      rewrite Hk2 in Hk2'. injection Hk2' as <-.
      destruct (Hfresh k2 s0 Hs0) as (_ & _ & _ & Hnil & Hnone0).
      rewrite He, Hp, Hnil. simpl. split; [lia|done].
    + rewrite (Hnone k2 Hs0) in Hk2. done.
  - split; congruence.
  - split; congruence.
  - rewrite He. simpl. eauto.
Qed.

End Peerings.

(** The run of Phase B on a concrete input: server-1 has one connection and
    two attachments bound to it; the notice is written and server-1 is in the
    universe, attached to the first. *)
Example C3_example :
  match @buildServers Topology.examplePlatform exampleWorld (Topology.registryOf Topology.smallData)
          Topology.smallData twoAttachments exampleVPCs with
  | Ok (servers, notes) =>
      notes = [SkipMultipleAttachments "server-1"; Found "server-1"] /\
      VPCAttachment <$> servers !! "server-1"
        = Some (Some (attachment "vpc-1" "server-1--unbundled--switch-1"))
  | Err _ => False
  end.
Proof. vm_compute. by split. Qed.

Lemma C3_multiple_attachments_kept_witness :
  SkipMultipleAttachments "server-1" ∈ (universeOf Topology.smallData twoAttachments).2 /\
  is_Some ((universeOf Topology.smallData twoAttachments).1 !! "server-1").
Proof.
  assert (Hvm : exists vm,
            Topology.vms (Topology.registryOf Topology.smallData) !! "server-1" = Some vm).
  { vm_compute. eauto. }
  destruct Hvm as [vm Hvm].
  apply (@C3_multiple_attachments_kept Topology.examplePlatform exampleWorld
           (Topology.registryOf Topology.smallData) Topology.smallData twoAttachments
           exampleVPCs (universeOf Topology.smallData twoAttachments).1
           (universeOf Topology.smallData twoAttachments).2
           {| ServerName := "server-1"; ServerSpecType := ServerTypeDefault |} vm
           {| ccConnection :=
                {| ConnName := "server-1--unbundled--switch-1";
                   Spec := Topology.unbundledSpec (Topology.port "server-1" "port2")
                                                  (Topology.port "switch-1" "Ethernet3") |};
              ccConnectedTo := ["switch-1"];
              ccConnectionType := CONNECTION_TYPE_UNBUNDLED |}
           (attachment "vpc-1" "server-1--unbundled--switch-1")
           (attachment "vpc-2" "server-1--unbundled--switch-1") []).
  - right. by left.
  - reflexivity.
  - exact Hvm.
  - vm_compute. reflexivity.
  - vm_compute. reflexivity.
  - vm_compute. reflexivity.
Defined.

(** C9, as stated, fails when the peerings name the same external: the
    permits of two external peering objects match the VPC and subnet of
    server-1, and the run goes through Phase C and executes its check. *)
Lemma C9_same_external_twice :
  match @buildServers Topology.examplePlatform exampleWorld (Topology.registryOf Topology.smallData)
          Topology.smallData oneAttachment exampleVPCs with
  | Ok (servers, _) =>
      match servers !! "server-1" with
      | Some s => permits (externalPeering "ext-1--vpc-1" "ext-1") s /\
                  permits (externalPeering "ext-1--vpc-1--again" "ext-1") s
      | None => False
      end
  | Err _ => False
  end /\
  executed <$> (checks <$>
    match @TestServerConnectivity Topology.examplePlatform exampleWorld curlOnly
            (Topology.registryOf Topology.smallData) Topology.smallData oneAttachment [] exampleVPCs
            [externalPeering "ext-1--vpc-1" "ext-1";
             externalPeering "ext-1--vpc-1--again" "ext-1"] with
    | Ok v => Some v
    | Err _ => None
    end) = Some [CurlCheck "server-1" "ext-1" false].
Proof.
  split; [|by vm_compute].
  vm_compute. repeat split; by left.
Qed.

Lemma C9_conflicting_externals_abort_witness :
  exists e,
    @TestServerConnectivity Topology.examplePlatform exampleWorld curlOnly
      (Topology.registryOf Topology.smallData) Topology.smallData oneAttachment [] exampleVPCs
      [externalPeering "ext-1--vpc-1" "ext-1"; externalPeering "ext-2--vpc-1" "ext-2"] = Err e.
Proof.
  assert (Hbuild : @buildServers Topology.examplePlatform exampleWorld
                     (Topology.registryOf Topology.smallData) Topology.smallData
                     oneAttachment exampleVPCs
                   = Ok ((universeOf Topology.smallData oneAttachment).1,
                         (universeOf Topology.smallData oneAttachment).2)).
  { vm_compute. reflexivity. }
  assert (Hs : exists s, (universeOf Topology.smallData oneAttachment).1 !! "server-1" = Some s /\
                 VPCName <$> VPC s = Some "vpc-1" /\ Subnet s = "default").
  { vm_compute. eexists. split; [reflexivity|]. by split. }
  destruct Hs as (s & Hs & Hvpc & Hsub).
  destruct (@C9_conflicting_externals_abort exampleWorld Topology.examplePlatform curlOnly
              (Topology.registryOf Topology.smallData) Topology.smallData oneAttachment []
              exampleVPCs
              [externalPeering "ext-1--vpc-1" "ext-1"; externalPeering "ext-2--vpc-1" "ext-2"]
              _ _ "server-1" s
              (externalPeering "ext-1--vpc-1" "ext-1") (externalPeering "ext-2--vpc-1" "ext-2")
              Hbuild Hs) as (e & _ & He).
  - by left.
  - right. by left.
  - split; [exact Hvpc|]. rewrite Hsub. by left.
  - split; [exact Hvpc|]. rewrite Hsub. by left.
  - discriminate.
  - by exists e.
Defined.

(** The peer lists of a concrete run: two peering objects relate vpc-1 and
    vpc-2, and each server has the other one once. *)
Example C10_example :
  match @buildServers Topology.examplePlatform exampleWorld (Topology.registryOf Topology.twoServerData)
          Topology.twoServerData eachAttached exampleVPCs with
  | Ok (servers0, _) =>
      match @expectedConnectivity exampleWorld
              [vpcPeering "vpc-1--vpc-2" "vpc-1" "vpc-2"; vpcPeering "vpc-2--vpc-1" "vpc-2" "vpc-1"]
              [] servers0 with
      | Ok servers =>
          VPCPeers <$> servers !! "server-1" = Some ["server-2"] /\
          VPCPeers <$> servers !! "server-2" = Some ["server-1"]
      | Err _ => False
      end
  | Err _ => False
  end.
Proof. vm_compute. by split. Qed.

Lemma C10_peers_consistent_witness :
  exists servers,
    @expectedConnectivity exampleWorld
       [vpcPeering "vpc-1--vpc-2" "vpc-1" "vpc-2"; vpcPeering "vpc-2--vpc-1" "vpc-2" "vpc-1"]
       [] (universeOf Topology.twoServerData eachAttached).1 = Ok servers /\
    forall a sa, servers !! a = Some sa -> Name sa = a /\ NoDup (VPCPeers sa).
Proof.
  assert (Hbuild : @buildServers Topology.examplePlatform exampleWorld
                     (Topology.registryOf Topology.twoServerData) Topology.twoServerData
                     eachAttached exampleVPCs
                   = Ok ((universeOf Topology.twoServerData eachAttached).1,
                         (universeOf Topology.twoServerData eachAttached).2)).
  { vm_compute. reflexivity. }
  assert (Hrun : exists servers,
            @expectedConnectivity exampleWorld
              [vpcPeering "vpc-1--vpc-2" "vpc-1" "vpc-2";
               vpcPeering "vpc-2--vpc-1" "vpc-2" "vpc-1"]
              [] (universeOf Topology.twoServerData eachAttached).1 = Ok servers).
  { vm_compute. eauto. }
  destruct Hrun as [servers Hrun].
  exists servers. split; [done|].
  apply (@C10_peers_consistent exampleWorld Topology.examplePlatform
           (Topology.registryOf Topology.twoServerData) Topology.twoServerData eachAttached
           exampleVPCs
           [vpcPeering "vpc-1--vpc-2" "vpc-1" "vpc-2"; vpcPeering "vpc-2--vpc-1" "vpc-2" "vpc-1"]
           [] _ servers _ Hbuild Hrun).
Defined.

End ConnectivityFacts.
